(** * PySimMIBCI: the simulation engine of [src/simulation.py]

    A shallow embedding of the parts of [simulation.py] that decide the
    event timeline, the peak-parameter tables, the epochs, the failed-trial
    bookkeeping, the power envelope, the fatigue split and the saved
    markers, followed by the properties proved about them.

    Conventions of the embedding:
    - Python [float] values are binary64 numbers: Rocq's primitive floats,
      with Python's [int()] and [round()] written out on the decoded
      mantissa and exponent.
    - Python [list] objects that the code copies or updates in place live in
      a store, addressed by location, so that aliasing is visible.
    - An exception is the result [None].
    - Draws of the random generator are arguments of the functions. *)

Set Warnings "-inexact-float".
From Stdlib Require Import ZArith Floats Lia Permutation.
From stdpp Require Import gmap strings list.

Local Open Scope Z_scope.

(* ================================================================== *)
(** ** Python numbers *)

(** [float(z)] for a Python integer: the nearest binary64 value. *)
Definition float_of_Z (z : Z) : float :=
  SF2Prim (binary_normalize prec emax z 0 false).

(** The integer [m * 2^e] closest to zero-side of a positive dyadic:
    [trunc_dyadic m e = floor (m * 2^e)]. *)
Definition trunc_dyadic (m : positive) (e : Z) : Z :=
  match e with
  | Z0 => Zpos m
  | Zpos p => Z.shiftl (Zpos m) (Zpos p)
  | Zneg p => Z.shiftr (Zpos m) (Zpos p)
  end.

(** [m * 2^e] rounded to the nearest integer, ties to the even one. *)
Definition round_dyadic (m : positive) (e : Z) : Z :=
  match e with
  | Z0 => Zpos m
  | Zpos p => Z.shiftl (Zpos m) (Zpos p)
  | Zneg p =>
      let q := Z.shiftr (Zpos m) (Zpos p) in
      let r := Z.land (Zpos m) (Z.ones (Zpos p)) in
      let half := Z.shiftl 1 (Zpos p - 1) in
      match r ?= half with
      | Lt => q
      | Gt => q + 1
      | Eq => if Z.even q then q else q + 1
      end
  end.

(** Python's [int(x)] on a float: truncation toward zero; [OverflowError]
    on an infinity and [ValueError] on a NaN. *)
Definition py_int (x : float) : option Z :=
  match Prim2SF x with
  | S754_zero _ => Some 0
  | S754_finite s m e =>
      Some (if s then - trunc_dyadic m e else trunc_dyadic m e)
  | S754_infinity _ | S754_nan => None
  end.

(** Python's [round(x)] on a float (one argument): nearest integer, ties to
    even; the same exceptions as [int]. *)
Definition py_round (x : float) : option Z :=
  match Prim2SF x with
  | S754_zero _ => Some 0
  | S754_finite s m e =>
      Some (if s then - round_dyadic m e else round_dyadic m e)
  | S754_infinity _ | S754_nan => None
  end.

(** [x in l] for a list of strings. *)
Definition py_in (x : string) (l : list string) : bool :=
  bool_decide (x ∈ l).

(* ================================================================== *)
(** ** The store of list objects *)

(** A location is the index of a list object in the store; allocation
    appends, so a fresh location is the length of the store. *)
Abbreviation loc := nat (only parsing).
Abbreviation heap := (list (list float)) (only parsing).

(** Computations that read and write the store and may raise. *)
Definition M (A : Type) : Type := heap → option (A * heap).

Definition ret {A} (a : A) : M A := λ h, Some (a, h).

Definition raise {A} : M A := λ _, None.

Definition bind {A B} (m : M A) (k : A → M B) : M B :=
  λ h, match m h with
       | Some (a, h') => k a h'
       | None => None
       end.

Notation "'let*' x ':=' m 'in' k" := (bind m (λ x, k))
  (at level 10, x pattern, m at level 100, k at level 200).

(** A new list object holding [v]. *)
Definition alloc (v : list float) : M loc :=
  λ h, Some (length h, h ++ [v]).

(** The contents of the list object at [l]. *)
Definition load (l : loc) : M (list float) :=
  λ h, match h !! l with
       | Some v => Some (v, h)
       | None => None
       end.

(** [obj[i] = x] on the list object at [l]; [IndexError] out of range. *)
Definition store (l : loc) (i : nat) (x : float) : M unit :=
  λ h, match h !! l with
       | Some v =>
           if decide (i < length v)%nat
           then Some (tt, <[l := <[i := x]> v]> h)
           else None
       | None => None
       end.

(* ================================================================== *)
(** ** [set_peak_amplitudes] *)

(** [user_peak_params]: label ↦ list object [[cf, pw, bw]].
    [simulation_peak_params]: label ↦ task ↦ list object. *)
Abbreviation peak_table := (gmap string loc) (only parsing).
Abbreviation task_table := (gmap string (gmap string loc)) (only parsing).

(** The inner loop of lines 70-71: for each task, a slice copy
    [user_peak_params[label][:]] of the label's list, bound to the task. *)
Fixpoint copy_tasks (src : loc) (MI_tasks : list string)
    (row : gmap string loc) : M (gmap string loc) :=
  match MI_tasks with
  | [] => ret row
  | task :: rest =>
      let* v := load src in
      let* l := alloc v in
      copy_tasks src rest (<[task := l]> row)
  end.

(** The outer loop of lines 68-71 over the items of [user_peak_params]. *)
Fixpoint copy_labels (items : list (string * loc)) (MI_tasks : list string)
    (acc : task_table) : M task_table :=
  match items with
  | [] => ret acc
  | (label, src) :: rest =>
      let* row := copy_tasks src MI_tasks ∅ in
      copy_labels rest MI_tasks (<[label := row]> acc)
  end.

(** [params[label][task][i] = x]; [KeyError] on a missing label or task. *)
Definition setitem (params : task_table) (label task : string) (i : nat)
    (x : float) : M unit :=
  match params !! label with
  | None => raise
  | Some row =>
      match row !! task with
      | None => raise
      | Some l => store l i x
      end
  end.

Definition set_peak_amplitudes (MI_tasks : list string)
    (user_peak_params : peak_table) (reduction : float) : M task_table :=
  let* params := copy_labels (map_to_list user_peak_params) MI_tasks ∅ in
  let* _ :=
    if py_in "MI/left" MI_tasks then
      let* _ := setitem params "G_precentral-lh" "MI/left" 1 0.4%float in
      setitem params "G_precentral-rh" "MI/left" 1
        (0.4 * (1 - reduction))%float
    else ret tt in
  let* _ :=
    if py_in "MI/right" MI_tasks then
      let* _ := setitem params "G_precentral-rh" "MI/right" 1 0.4%float in
      setitem params "G_precentral-lh" "MI/right" 1
        (0.4 * (1 - reduction))%float
    else ret tt in
  let* _ :=
    if py_in "rest" MI_tasks then
      let* _ := setitem params "G_precentral-rh" "rest" 1 0.4%float in
      setitem params "G_precentral-lh" "rest" 1 0.4%float
    else ret tt in
  ret params.

(** Reading [params[label][task]] back from the store. *)
Definition peak_of (h : heap) (params : task_table) (label task : string)
    : option (list float) :=
  row ← params !! label; l ← row !! task; h !! l.

(** The base table as values. *)
Definition base_of (h : heap) (user_peak_params : peak_table) (label : string)
    : option (list float) :=
  l ← user_peak_params !! label; h !! l.

(** The entry [params[label][task][1]], the peak's relative power. *)
Definition power_of (h : heap) (params : task_table) (label task : string)
    : option float :=
  v ← peak_of h params label task; v !! 1%nat.

(** A base table in a store: every label refers to a live list object that
    is a triple [[center_frequency, relative_power, bandwidth]]. *)
Definition peak_table_wf (h : heap) (user_peak_params : peak_table) : Prop :=
  map_Forall (λ _ src, length <$> h !! src = Some 3%nat) user_peak_params.

#[global] Instance peak_table_wf_dec h user_peak_params :
  Decision (peak_table_wf h user_peak_params).
Proof. unfold peak_table_wf. apply _. Defined.

(** *** The resolver as the specification words it

    Section 4.1: the precentral label on the side of the imagined hand keeps
    the reference level 0.4, the opposite one gets 0.4 scaled by [1 - r];
    at rest both get 0.4; every other entry keeps its base value. *)
Definition erd_level (reduction : float) (label task : string)
    : option float :=
  if decide (task = "MI/left") then
    if decide (label = "G_precentral-lh") then Some 0.4%float
    else if decide (label = "G_precentral-rh")
         then Some (0.4 * (1 - reduction))%float else None
  else if decide (task = "MI/right") then
    if decide (label = "G_precentral-rh") then Some 0.4%float
    else if decide (label = "G_precentral-lh")
         then Some (0.4 * (1 - reduction))%float else None
  else if decide (task = "rest") then
    if decide (label = "G_precentral-rh") then Some 0.4%float
    else if decide (label = "G_precentral-lh") then Some 0.4%float else None
  else None.

Definition resolved (MI_tasks : list string)
    (base : string → option (list float)) (reduction : float)
    (label task : string) : option (list float) :=
  if py_in task MI_tasks then
    v ← base label;
    Some (match erd_level reduction label task with
          | Some x => <[1%nat := x]> v
          | None => v
          end)
  else None.

(** No two entries of a table share a list object. *)
Definition table_inj (params : task_table) : Prop :=
  ∀ label1 task1 label2 task2 row1 row2 l,
    params !! label1 = Some row1 → row1 !! task1 = Some l →
    params !! label2 = Some row2 → row2 !! task2 = Some l →
    label1 = label2 ∧ task1 = task2.

(** Every list object of a table was allocated at or after [n]. *)
Definition table_fresh (n : nat) (h : heap) (params : task_table) : Prop :=
  ∀ label task row l,
    params !! label = Some row → row !! task = Some l →
    (n ≤ l < length h)%nat.

(** One in-place update seen on the values of a table. *)
Definition upd (f : string → string → option (list float))
    (label task : string) (x : float) : string → string → option (list float) :=
  λ lb tk, if decide (lb = label ∧ tk = task)
           then <[1%nat := x]> <$> f lb tk else f lb tk.

(** The entry of a table of values has a relative-power cell. *)
Definition has_power (f : string → string → option (list float))
    (label task : string) : Prop :=
  ∃ v, f label task = Some v ∧ (1 < length v)%nat.

(* ================================================================== *)
(** ** [generate_when] *)

(** A row [[onset_sample, reserved, class_id]] of the events array. *)
Record event : Type := Event {
  onset_sample : Z;
  reserved : Z;
  class_id : Z
}.

Definition zero_row : event := Event 0 0 0.

(** [np.zeros((n, 3), dtype=np.int32)]. *)
Definition np_zeros (n : nat) : list event := replicate n zero_row.

(** The values an [np.int32] cell holds.  Storing a Python integer outside
    this range raises [OverflowError] (NumPy 2; NumPy 1 wrapped it around
    under a deprecation warning). *)
Definition int32_ok (z : Z) : bool := (- 2 ^ 31 <=? z) && (z <? 2 ^ 31).

(** [events[cnt, 0] = v]; [IndexError] when [cnt] is not a row. *)
Definition set_onset (events : list event) (cnt : nat) (v : Z)
    : option (list event) :=
  match events !! cnt with
  | None => None
  | Some r =>
      if int32_ok v
      then Some (<[cnt := Event v (reserved r) (class_id r)]> events)
      else None
  end.

(** [events[cnt, 2] = v]. *)
Definition set_class (events : list event) (cnt : nat) (v : Z)
    : option (list event) :=
  match events !! cnt with
  | None => None
  | Some r =>
      if int32_ok v
      then Some (<[cnt := Event (onset_sample r) (reserved r) v]> events)
      else None
  end.

(** [round(duration/1000*sfreq)] for a duration in ms and a sampling
    frequency in Hz, both Python integers. *)
Definition duration_samples (duration sfreq : Z) : option Z :=
  py_round (float_of_Z duration / 1000 * float_of_Z sfreq)%float.

(** [repmat(np.arange(0, N_classes), 1, k)], transposed, column 0: the class
    ids [0 .. N_classes-1], [k] times over. *)
Definition repmat_arange (N_classes k : nat) : list nat :=
  concat (replicate k (seq 0 N_classes)).

(** Lines 305-308.  [int(N_trials/N_classes)] divides the two integers
    exactly, rounds once to binary64 and truncates; for trial counts an
    array can hold that is the integer quotient.  [ZeroDivisionError] when
    [events_info] is empty. *)
Definition balanced_trials_ID (N_classes N_trials : nat) : option (list nat) :=
  match N_classes with
  | O => None
  | S _ => Some (repmat_arange N_classes (N_trials / N_classes))
  end.

(** The loop variables [events], [cnt], [current_time]. *)
Record when_state : Type := WhenState {
  events : list event;
  cnt : nat;
  current_time : Z
}.

(** One segment: the row [cnt] gets the running time and the class id, the
    time advances by the rounded duration, [cnt] by one. *)
Definition emit (st : when_state) (class : Z) (duration_tmp : option Z)
    : option when_state :=
  ev1 ← set_onset (events st) (cnt st) (current_time st);
  ev2 ← set_class ev1 (cnt st) class;
  d ← duration_tmp;
  Some (WhenState ev2 (S (cnt st)) (current_time st + d)).

(** The body of the loop of lines 336-350; [events_info] is given by its
    ['duration'] entries, indexed by class id. *)
Definition trial_step (events_info : list Z) (sfreq : Z)
    (include_rest : bool) (rest_duration : Z)
    (st : when_state) (event_ID : nat) : option when_state :=
  duration ← events_info !! event_ID;
  st1 ← emit st (Z.of_nat event_ID) (duration_samples duration sfreq);
  if include_rest
  then emit st1 (Z.of_nat (length events_info) + 1)
         (duration_samples rest_duration sfreq)
  else Some st1.

Fixpoint trial_loop (events_info : list Z) (sfreq : Z)
    (include_rest : bool) (rest_duration : Z)
    (trials_ID : list nat) (st : when_state) : option when_state :=
  match trials_ID with
  | [] => Some st
  | event_ID :: rest =>
      st1 ← trial_step events_info sfreq include_rest rest_duration
               st event_ID;
      trial_loop events_info sfreq include_rest rest_duration rest st1
  end.

(** The number of rows allocated at lines 318-327. *)
Definition n_rows (N_trials : nat) (include_rest include_baseline : bool)
    : nat :=
  if include_baseline then
    if include_rest then (2 * N_trials + 1)%nat else (N_trials + 1)%nat
  else
    if include_rest then (2 * N_trials)%nat else N_trials.

(** [generate_when]; [permutation] is the outcome of
    [np.random.permutation] on the balanced sequence. *)
Definition generate_when (permutation : list nat → list nat)
    (events_info : list Z) (N_trials : nat) (sfreq : Z)
    (include_rest : bool) (rest_duration : Z)
    (include_baseline : bool) (baseline_duration : Z)
    : option (list event) :=
  let N_classes := length events_info in
  trials_ID ← balanced_trials_ID N_classes N_trials;
  let trials_ID := permutation trials_ID in
  let st0 :=
    WhenState (np_zeros (n_rows N_trials include_rest include_baseline))
      0%nat 0 in
  st1 ← (if include_baseline
         then emit st0 (Z.of_nat N_classes)
                (duration_samples baseline_duration sfreq)
         else Some st0);
  st2 ← trial_loop events_info sfreq include_rest rest_duration
           trials_ID st1;
  Some (events st2).

(** *** The timeline as the specification words it (section 4.4) *)

(** A segment is a class id and a length in samples. *)
Definition samples (duration sfreq : Z) : Z :=
  default 0 (duration_samples duration sfreq).

Definition trial_segments (events_info : list Z) (sfreq : Z)
    (include_rest : bool) (rest_duration : Z) (trials_ID : list nat)
    : list (Z * Z) :=
  flat_map
    (λ event_ID,
       (Z.of_nat event_ID, samples (default 0 (events_info !! event_ID)) sfreq)
       :: (if include_rest
           then [(Z.of_nat (length events_info) + 1,
                  samples rest_duration sfreq)]
           else []))
    trials_ID.

Definition segments (events_info : list Z) (sfreq : Z)
    (include_rest : bool) (rest_duration : Z)
    (include_baseline : bool) (baseline_duration : Z)
    (trials_ID : list nat) : list (Z * Z) :=
  (if include_baseline
   then [(Z.of_nat (length events_info), samples baseline_duration sfreq)]
   else [])
  ++ trial_segments events_info sfreq include_rest rest_duration trials_ID.

(** The events of a run of segments that starts at time [t]: each onset is
    the sum of the lengths of the segments before it. *)
Fixpoint timeline (t : Z) (segs : list (Z * Z)) : list event :=
  match segs with
  | [] => []
  | (class, d) :: rest => Event t 0 class :: timeline (t + d) rest
  end.

(** The length in samples of a run of segments. *)
Definition span (segs : list (Z * Z)) : Z :=
  foldr (λ seg acc, snd seg + acc) 0 segs.

(** Onsets strictly increase down the rows. *)
Fixpoint strictly_increasing (l : list Z) : Prop :=
  match l with
  | [] => True
  | x :: rest =>
      match rest with
      | [] => True
      | y :: _ => x < y ∧ strictly_increasing rest
      end
  end.

(** The rows of class [c]. *)
Definition rows_of_class (c : Z) (evs : list event) : list event :=
  filter (λ e, class_id e = c) evs.

(* ================================================================== *)
(** ** The fatigue split of [add_basal_theta_alpha] and
       [add_fatigue_effect] *)

(** Lines 486 and 569: [int(fatigue_start*source_simulator.n_times)], the
    length of the alert segment and the onset of the fatigue segment. *)
Definition N_samples_alert (fatigue_start : float) (n_times : Z) : option Z :=
  py_int (fatigue_start * float_of_Z n_times)%float.

(** Line 572: [source_simulator.n_times - N_samples_alert]. *)
Definition N_samples_fatigue (fatigue_start : float) (n_times : Z)
    : option Z :=
  alert ← N_samples_alert fatigue_start n_times;
  Some (n_times - alert).

(** Line 485: the event row of the alert segment. *)
Definition alert_event : event := Event 0 0 4.

(** Line 570: the event row of the fatigue segment. *)
Definition fatigue_event (fatigue_start : float) (n_times : Z)
    : option event :=
  alert ← N_samples_alert fatigue_start n_times;
  Some (Event alert 0 5).

(** *** The split as the specification words it

    The specification puts the split at [round(fatigue_start * n_times)]. *)
Definition rounded_split (fatigue_start : float) (n_times : Z) : option Z :=
  py_round (fatigue_start * float_of_Z n_times)%float.


(* ================================================================== *)
(** ** The failed trials of [generate_what_failed] *)

(** [mask.nonzero()[0]]: the indices of the true entries, ascending. *)
Fixpoint nonzero_from (i : nat) (mask : list bool) : list nat :=
  match mask with
  | [] => []
  | b :: rest => (if b then [i] else []) ++ nonzero_from (S i) rest
  end.

Definition nonzero (mask : list bool) : list nat := nonzero_from 0 mask.

(** Line 204: the rows whose class id is 0 or 1. *)
Definition MI_positions (events : list event) : list nat :=
  nonzero ((λ e, (class_id e =? 0) || (class_id e =? 1)) <$> events).

(** Line 205, the size of the draw: [int(p_failed*N_trials/2)]. *)
Definition N_failed (p_failed : float) (N_trials : nat) : option Z :=
  py_int (p_failed * float_of_Z (Z.of_nat N_trials) / 2)%float.

(** [rng.choice(a, size)] with its defaults [replace=True, p=None]:
    [ValueError] on a negative size and on an empty population with a
    positive size; otherwise [a[idx]] for [idx = integers(0, len(a), size)],
    the [size] draws of the generator, given here by [integers]. *)
Definition rng_choice (integers : nat → nat → list nat) (a : list nat)
    (size : Z) : option (list nat) :=
  if size <? 0 then None
  else if bool_decide (a = []) && (0 <? size) then None
  else mapM (λ i, a !! i) (integers (length a) (Z.to_nat size)).

(** [v[idx] = 1] for an index array; [IndexError] outside the vector.  The
    entries of the vector are 0.0 and 1.0, here [false] and [true]. *)
Fixpoint set_true (idx : list nat) (v : list bool) : option (list bool) :=
  match idx with
  | [] => Some v
  | i :: rest =>
      if decide (i < length v)%nat
      then set_true rest (<[i := true]> v)
      else None
  end.

(** Lines 201-206. *)
Definition bad_trials_vector (integers : nat → nat → list nat)
    (events : list event) (N_trials : nat) (p_failed : float)
    : option (list bool) :=
  size ← N_failed p_failed N_trials;
  MI_positions_failed ← rng_choice integers (MI_positions events) size;
  set_true MI_positions_failed (replicate (length events) false).

(** The number of entries set. *)
Definition n_marked (v : list bool) : nat :=
  length (filter (λ b, b = true) v).

(** *** The count as the specification words it *)
Definition rounded_failed (p_failed : float) (N_trials : nat) : option Z :=
  py_round (p_failed * float_of_Z (Z.of_nat N_trials) / 2)%float.

(** *** The epochs *)

(** [np.where(events[:, 2] == c)[0]]. *)
Definition where_class (events : list event) (c : Z) : list nat :=
  nonzero ((λ e, class_id e =? c) <$> events).

(** [v[idx]] for an index array. *)
Definition take_idx (v : list bool) (idx : list nat) : option (list bool) :=
  mapM (λ i, v !! i) idx.

(** An array of epochs, one row per trial.  A row that [np.empty] allocated
    and nothing wrote since holds arbitrary memory: [None]. *)
Abbreviation epochs := (list (option (list float))) (only parsing).

Definition np_empty (rows : nat) : list (option (list float)) :=
  replicate rows None.

(** [l[start:stop]] for [0 <= start <= stop]. *)
Definition py_slice {A} (l : list A) (start stop : nat) : list A :=
  take (stop - start) (drop start l).

(** [arr[t] = v] on rows of [N_samples_trial] columns: [IndexError] when [t]
    is not a row; [v] fills the row when it has its length, is repeated over
    it when it has one element, and is a [ValueError] otherwise. *)
Definition set_row (arr : list (option (list float)))
    (N_samples_trial t : nat) (v : list float)
    : option (list (option (list float))) :=
  if decide (t < length arr)%nat then
    if decide (length v = N_samples_trial) then Some (<[t := Some v]> arr)
    else match v with
         | [x] => Some (<[t := Some (replicate N_samples_trial x)]> arr)
         | _ => None
         end
  else None.

(** Lines 237 and 262: [peak[1] == 0.4*(1-reduction)]. *)
Definition no_modulation (peak_1 reduction : float) : bool :=
  (peak_1 =? 0.4 * (1 - reduction))%float.

(** Lines 261-268, from trial [t] on.  [activity] and [activity_wrong] are
    [MI_activity[label][task]] and [MI_activity[label][task+'_wrong']]; the
    second exists when [erd] holds, which is when it is read. *)
Fixpoint fill_failed (bad_trials_vector_tmp : list bool) (t : nat)
    (erd : bool) (activity activity_wrong : list float)
    (N_samples_trial : nat) (arr : list (option (list float)))
    : option (list (option (list float))) :=
  match bad_trials_vector_tmp with
  | [] => Some arr
  | bad :: rest =>
      arr1 ← set_row arr N_samples_trial t
                (py_slice (if bad && erd then activity_wrong else activity)
                   (t * N_samples_trial) ((t + 1) * N_samples_trial));
      fill_failed rest (S t) erd activity activity_wrong N_samples_trial arr1
  end.

(** Lines 256-268 for one label and one task. *)
Definition epochs_failed (bad_trials_vector : list bool)
    (events : list event) (task_ID : Z) (erd : bool)
    (activity activity_wrong : list float)
    (N_trials_class N_samples_trial : nat)
    : option (list (option (list float))) :=
  bad_trials_vector_tmp ←
    take_idx bad_trials_vector (where_class events task_ID);
  fill_failed bad_trials_vector_tmp 0 erd activity activity_wrong
    N_samples_trial (np_empty N_trials_class).

(** [enumerate(l, start)]. *)
Definition enumerate {A} (l : list A) (start : Z) : list (Z * A) :=
  imap (λ i x, (start + Z.of_nat i, x)) l.

(** Lines 254-268 for one label: the dictionary [MI_activity_epoched[label]].
    [erd], [activity] and [activity_wrong] give, for each task, the test of
    line 262 and the two waveforms. *)
Definition generate_what_failed_label (MI_tasks : list string)
    (events : list event) (bad_trials_vector : list bool)
    (erd : string → bool) (activity activity_wrong : string → list float)
    (N_trials_class N_samples_trial : nat)
    : option (gmap string (list (option (list float)))) :=
  foldl
    (λ acc item,
       epoched ← acc;
       rows ← epochs_failed bad_trials_vector events item.1 (erd item.2)
                 (activity item.2) (activity_wrong item.2)
                 N_trials_class N_samples_trial;
       Some (<[item.2 := rows]> epoched))
    (Some ∅) (enumerate MI_tasks 1).


(* ================================================================== *)
(** ** [theta_activity] and [alpha_activity] *)

(** The arithmetic of the power envelope, as an interface.  The code runs
    it on binary64 numbers: the instance [float_sample]. *)
Class Sample (R : Type) : Type := {
  of_nat : nat → R;         (* the float of an index *)
  add : R → R → R;
  mul : R → R → R;
  div : R → R → R;
  eqb : R → R → bool;       (* [==] *)
  tiny : R                  (* the literal [1e-8] *)
}.

#[global] Instance float_sample : Sample float := {|
  of_nat n := float_of_Z (Z.of_nat n);
  add := PrimFloat.add;
  mul := PrimFloat.mul;
  div := PrimFloat.div;
  eqb := PrimFloat.eqb;
  tiny := 1e-8%float
|}.

(** [np.linspace(0, stop, num)] as NumPy computes it: the indices
    [arange(0, num)] times the step [stop/(num-1)] (divided by [num-1] and
    then multiplied by [stop] when the step is zero), plus the start 0, and
    the last entry overwritten with [stop] when [num > 1]. *)
Definition np_linspace {R} `{Sample R} (stop : R) (num : nat) : list R :=
  let y := of_nat <$> seq 0 num in
  let div_ := (num - 1)%nat in
  let y :=
    if decide (0 < div_)%nat then
      let step := div stop (of_nat div_) in
      if eqb step (of_nat 0)
      then (λ i, mul (div i (of_nat div_)) stop) <$> y
      else (λ i, mul i step) <$> y
    else (λ i, mul i stop) <$> y in
  let y := (λ x, add x (of_nat 0)) <$> y in
  if decide (1 < num)%nat then <[(num - 1)%nat := stop]> y else y.

(** Lines 414-422; [filtered] is the output of [signal.sosfilt], of
    [N_samples] entries. *)
Definition theta_activity {R} `{Sample R} (filtered : list R)
    (increase_dynamic : string) (scale : R) : list R :=
  let source_theta_activity :=
    if negb (eqb scale (of_nat 1)) then
      if bool_decide (increase_dynamic = "linear") then
        let mask := np_linspace scale (length filtered) in
        zip_with mul filtered mask
      else if bool_decide (increase_dynamic = "constant") then
        (λ x, mul x scale) <$> filtered
      else filtered
    else filtered in
  mul tiny <$> source_theta_activity.

(** Lines 456-463. *)
Definition alpha_activity {R} `{Sample R} (filtered : list R)
    (increase_dynamic : string) (scale : R) : list R :=
  let source_alpha_activity :=
    if negb (eqb scale (of_nat 1)) then
      if bool_decide (increase_dynamic = "linear") then
        let mask := np_linspace scale (length filtered) in
        zip_with mul filtered mask
      else if bool_decide (increase_dynamic = "constant") then
        (λ x, mul x scale) <$> filtered
      else filtered
    else filtered in
  mul tiny <$> source_alpha_activity.

(** *** The envelope as the specification words it *)

(** Sample [i] of [N] is multiplied by [i/(N-1) * scale], evaluated in
    binary64 as written. *)
Definition linear_envelope (scale : float) (N i : nat) : float :=
  (float_of_Z (Z.of_nat i) / float_of_Z (Z.of_nat (N - 1)) * scale)%float.


(* ================================================================== *)
(** ** The epochs of [generate_what] *)

(** Lines 121-124 (210-213 in [generate_what_failed]): the sizes derived
    from the events and the trial duration. *)
Record what_sizes : Type := WhatSizes {
  N_samples_trial : Z;
  N_samples : Z;
  N_samples_class : Z;
  N_trials_class : nat
}.

(** [events[-1, 0]] is an [IndexError] on an array without rows and
    [// len(MI_tasks)] a [ZeroDivisionError] on an empty task list. *)
Definition generate_what_sizes (MI_tasks : list string)
    (events : list event) (MI_duration sfreq : Z) (N_trials : nat)
    : option what_sizes :=
  n ← duration_samples MI_duration sfreq;
  e ← last events;
  if decide (length MI_tasks = 0%nat) then None
  else Some (WhatSizes n (onset_sample e + n)
               ((onset_sample e + n) `div` Z.of_nat (length MI_tasks))
               (N_trials / length MI_tasks)).

(** Lines 154-156 over the trials [trials]: epoch [t] is the slice
    [activity[t*N_samples_trial:(t+1)*N_samples_trial]]. *)
Fixpoint fill_epochs (trials : list nat) (activity : list float)
    (n : nat) (arr : list (option (list float)))
    : option (list (option (list float))) :=
  match trials with
  | [] => Some arr
  | t :: rest =>
      arr1 ← set_row arr n t (py_slice activity (t * n) ((t + 1) * n));
      fill_epochs rest activity n arr1
  end.

(** Lines 152-156 for one label and one task; [activity] is
    [MI_activity[label][task]].  [np.empty] raises [ValueError] on a
    negative dimension. *)
Definition generate_what_epochs (activity : list float)
    (N_trials_class : nat) (N_samples_trial : Z)
    : option (list (option (list float))) :=
  if N_samples_trial <? 0 then None
  else fill_epochs (seq 0 N_trials_class) activity
         (Z.to_nat N_samples_trial) (np_empty N_trials_class).

(* ================================================================== *)
(** ** The markers of [save_mat_simulated_data] *)

(** [a[mask]] for a boolean mask of the length of [a]. *)
Definition boolean_index {A} (a : list A) (mask : list bool) : list A :=
  fst <$> filter (λ p, snd p = true) (zip a mask).

(** Lines 644-646: the pair [(mrk['pos'], mrk['y'])]. *)
Definition mrk (events : list event) : list Z * list Z :=
  let keep := (λ e, negb (class_id e =? 3)) <$> events in
  (boolean_index (onset_sample <$> events) keep,
   boolean_index (class_id <$> events) keep).


(* ================================================================== *)
(** ** The sampling frequency of the source simulator *)

(** Line 45: the simulator is built with [tstep=1/info['sfreq']], which it
    keeps as [_tstep]. *)
Definition tstep_of (sfreq : Z) : float := (1 / float_of_Z sfreq)%float.

(** Lines 490, 509, 575 and 596: [sfreq=int(1/source_simulator._tstep)],
    the sampling frequency handed to [alpha_activity] and
    [theta_activity]. *)
Definition simulator_sfreq (tstep : float) : option Z :=
  py_int (1 / tstep)%float.


(* ================================================================== *)
(** * Verification *)

(** ** The copy loops of [set_peak_amplitudes] *)

Lemma copy_tasks_spec (MI_tasks : list string) :
  ∀ (src : nat) (row : gmap string nat) (h : list (list float)) v,
    h !! src = Some v →
    ∃ row',
      copy_tasks src MI_tasks row h
        = Some (row', h ++ replicate (length MI_tasks) v) ∧
      (∀ t, t ∉ MI_tasks → row' !! t = row !! t) ∧
      (∀ t, t ∈ MI_tasks →
         ∃ l, row' !! t = Some l ∧
              (length h ≤ l < length h + length MI_tasks)%nat) ∧
      (∀ t1 t2 l, t1 ∈ MI_tasks → t2 ∈ MI_tasks →
         row' !! t1 = Some l → row' !! t2 = Some l → t1 = t2).
Proof.
  induction MI_tasks as [|t ts IH]; intros src row h v Hsrc.
  - exists row. simpl. rewrite app_nil_r. repeat split; try done.
    + intros t Ht. by apply elem_of_nil in Ht.
    + intros t1 t2 l Ht. by apply elem_of_nil in Ht.
  - assert (Hsrc' : (h ++ [v]) !! src = Some v)
      by (apply lookup_app_l_Some; exact Hsrc).
    destruct (IH src (<[t := length h]> row) (h ++ [v]) v Hsrc')
      as (row' & Hrun & Hout & Hin & Hinj).
    exists row'. split; [|split; [|split]].
    + simpl. unfold bind, load, alloc. rewrite Hsrc. rewrite Hrun.
      by rewrite <- app_assoc.
    + intros t' Ht'. rewrite Hout by set_solver.
      apply lookup_insert_ne. set_solver.
    + intros t' Ht'. destruct (decide (t' ∈ ts)) as [Hts|Hts].
      * destruct (Hin t' Hts) as (l & Hl & Hr). exists l. split; [done|].
        rewrite length_app in Hr. simpl in *. lia.
      * assert (t' = t) as -> by set_solver.
        exists (length h). rewrite Hout by done.
        rewrite lookup_insert_eq. split; [done|]. simpl. lia.
    + intros t1 t2 l Ht1 Ht2 H1 H2.
      destruct (decide (t1 ∈ ts)) as [Hts1|Hts1];
        destruct (decide (t2 ∈ ts)) as [Hts2|Hts2].
      * eauto.
      * assert (t2 = t) as -> by set_solver.
        rewrite Hout in H2 by done. rewrite lookup_insert_eq in H2.
        destruct (Hin t1 Hts1) as (l' & Hl' & Hr).
        rewrite length_app in Hr. simpl in Hr.
        simplify_eq. lia.
      * assert (t1 = t) as -> by set_solver.
        rewrite Hout in H1 by done. rewrite lookup_insert_eq in H1.
        destruct (Hin t2 Hts2) as (l' & Hl' & Hr).
        rewrite length_app in Hr. simpl in Hr.
        simplify_eq. lia.
      * set_solver.
Qed.

Lemma copy_labels_spec (MI_tasks : list string)
    (items : list (string * nat)) :
  ∀ (acc : gmap string (gmap string nat)) (h : list (list float)),
    NoDup items.*1 →
    (∀ label src, (label, src) ∈ items → is_Some (h !! src)) →
    ∃ params ext,
      copy_labels items MI_tasks acc h = Some (params, h ++ ext) ∧
      (∀ label, label ∉ items.*1 → params !! label = acc !! label) ∧
      (∀ label src, (label, src) ∈ items →
         ∃ row, params !! label = Some row ∧
           (∀ task, is_Some (row !! task) ↔ task ∈ MI_tasks) ∧
           (∀ task l, row !! task = Some l →
              (length h ≤ l < length (h ++ ext))%nat ∧
              (h ++ ext) !! l = h !! src) ∧
           (∀ t1 t2 l, row !! t1 = Some l → row !! t2 = Some l → t1 = t2)) ∧
      (∀ label1 label2 row1 row2 t1 t2 l,
         label1 ∈ items.*1 → label2 ∈ items.*1 →
         params !! label1 = Some row1 → params !! label2 = Some row2 →
         row1 !! t1 = Some l → row2 !! t2 = Some l → label1 = label2).
Proof.
  induction items as [|[label src] items IH]; intros acc h Hnd Hvalid.
  - exists acc, []. rewrite app_nil_r. simpl. repeat split; try done.
    + intros label src Hin. by apply elem_of_nil in Hin.
    + intros ? ? ? ? ? ? ? Hin. by apply elem_of_nil in Hin.
  - rewrite fmap_cons in Hnd. simpl in Hnd.
    apply NoDup_cons in Hnd as [Hfresh Hnd].
    destruct (Hvalid label src) as [v Hv]; [left|].
    destruct (copy_tasks_spec MI_tasks src ∅ h v Hv)
      as (row0 & Hrun0 & Hout0 & Hin0 & Hinj0).
    set (h1 := h ++ replicate (length MI_tasks) v) in *.
    assert (Hlen1 : length h1 = (length h + length MI_tasks)%nat)
      by (unfold h1; rewrite length_app, length_replicate; lia).
    assert (Hvalid1 : ∀ label' src', (label', src') ∈ items →
                        is_Some (h1 !! src')).
    { intros label' src' Hin.
      destruct (Hvalid label' src') as [w Hw]; [by right|].
      exists w. unfold h1. by apply lookup_app_l_Some. }
    destruct (IH (<[label := row0]> acc) h1 Hnd Hvalid1)
      as (params & ext & Hrun & Hother & Hrows & Hcross).
    assert (Hhead : params !! label = Some row0).
    { rewrite Hother by done. apply lookup_insert_eq. }
    assert (Hrow0 : ∀ task l, row0 !! task = Some l →
               task ∈ MI_tasks ∧ (length h ≤ l < length h1)%nat).
    { intros task l Hl. destruct (decide (task ∈ MI_tasks)) as [Ht|Ht].
      - split; [done|]. destruct (Hin0 task Ht) as (l' & Hl' & Hr).
        simplify_eq. lia.
      - rewrite Hout0 in Hl by done. by rewrite lookup_empty in Hl. }
    assert (Htail : ∀ label', label' ∈ items.*1 → ∀ row task l,
               params !! label' = Some row → row !! task = Some l →
               (length h1 ≤ l)%nat).
    { intros label' Hin' row task l Hrow Hl.
      apply list_elem_of_fmap in Hin' as [[lb src'] [-> Hin']]. simpl in *.
      destruct (Hrows lb src' Hin') as (row' & Hrow' & _ & Hrange & _).
      simplify_eq. by destruct (Hrange task l Hl) as [[? _] _]. }
    exists params, (replicate (length MI_tasks) v ++ ext).
    rewrite app_assoc. fold h1. split; [|split; [|split]].
    + simpl. unfold bind. rewrite Hrun0. exact Hrun.
    + intros label' Hnot. rewrite fmap_cons in Hnot. simpl in Hnot.
      apply not_elem_of_cons in Hnot as [Hne Hnot].
      rewrite Hother by done. by apply lookup_insert_ne.
    + intros label' src' Hin. apply elem_of_cons in Hin as [Heq|Hin].
      * simplify_eq. exists row0. split; [done|]. split; [|split].
        -- intros task. split.
           ++ intros [l Hl]. by destruct (Hrow0 task l Hl).
           ++ intros Ht. destruct (Hin0 task Ht) as (l & Hl & _). by exists l.
        -- intros task l Hl. destruct (Hrow0 task l Hl) as [Ht Hr].
           split; [rewrite length_app; lia|].
           rewrite lookup_app_l by lia.
           unfold h1. rewrite lookup_app_r by lia.
           rewrite Hv. apply lookup_replicate_2. lia.
        -- intros t1 t2 l H1 H2. destruct (Hrow0 _ _ H1), (Hrow0 _ _ H2).
           eauto.
      * destruct (Hrows label' src' Hin) as (row & Hrow & Hdom & Hrange & Hinj).
        exists row. split; [done|]. split; [done|]. split; [|done].
        intros task l Hl. destruct (Hrange task l Hl) as [Hr Hc].
        split; [lia|]. rewrite Hc.
        destruct (Hvalid label' src') as [w Hw]; [by right|].
        unfold h1. rewrite Hw. by apply lookup_app_l_Some.
    + intros label1 label2 row1 row2 t1 t2 l Hl1 Hl2 Hr1 Hr2 H1 H2.
      rewrite fmap_cons in Hl1, Hl2. simpl in Hl1, Hl2.
      apply elem_of_cons in Hl1 as [->|Hl1];
        apply elem_of_cons in Hl2 as [->|Hl2]; [done| | |by eauto].
      * simplify_eq. destruct (Hrow0 _ _ H1) as [_ Hr].
        pose proof (Htail _ Hl2 _ _ _ Hr2 H2). lia.
      * simplify_eq. destruct (Hrow0 _ _ H2) as [_ Hr].
        pose proof (Htail _ Hl1 _ _ _ Hr1 H1). lia.
Qed.

(** The table after the two copy loops: fresh, unshared list objects, one
    per label and requested task, each equal to the label's base list. *)
Lemma copy_phase (MI_tasks : list string) (user_peak_params : gmap string nat)
    (h : list (list float)) :
  (∀ label src, user_peak_params !! label = Some src → is_Some (h !! src)) →
  ∃ params ext,
    copy_labels (map_to_list user_peak_params) MI_tasks ∅ h
      = Some (params, h ++ ext) ∧
    table_inj params ∧
    table_fresh (length h) (h ++ ext) params ∧
    (∀ label task,
       peak_of (h ++ ext) params label task
       = if py_in task MI_tasks then base_of h user_peak_params label
         else None).
Proof.
  intros Hvalid.
  destruct (copy_labels_spec MI_tasks (map_to_list user_peak_params) ∅ h)
    as (params & ext & Hrun & Hother & Hrows & Hcross).
  { apply NoDup_fst_map_to_list. }
  { intros label src Hin. apply elem_of_map_to_list in Hin. eauto. }
  assert (Hitem : ∀ label row, params !! label = Some row →
            ∃ src, user_peak_params !! label = Some src).
  { intros label row Hrow.
    destruct (user_peak_params !! label) as [src|] eqn:Hl; [eauto|].
    rewrite Hother in Hrow; [by rewrite lookup_empty in Hrow|].
    intros Hin. apply list_elem_of_fmap in Hin as [[lb src] [-> Hin]].
    apply elem_of_map_to_list in Hin. simpl in *. congruence. }
  assert (Hkey : ∀ label src, user_peak_params !! label = Some src →
            label ∈ (map_to_list user_peak_params).*1).
  { intros label src Hl. apply list_elem_of_fmap. exists (label, src).
    split; [done|]. by apply elem_of_map_to_list. }
  exists params, ext. split; [done|]. split; [|split].
  - intros label1 task1 label2 task2 row1 row2 l Hr1 H1 Hr2 H2.
    destruct (Hitem _ _ Hr1) as [src1 Hs1], (Hitem _ _ Hr2) as [src2 Hs2].
    assert (label1 = label2) as <- by eauto 10.
    split; [done|]. simplify_eq.
    destruct (Hrows label1 src1) as (row & Hrow & _ & _ & Hinj);
      [by apply elem_of_map_to_list|].
    simplify_eq. eauto.
  - intros label task row l Hrow Hl.
    destruct (Hitem _ _ Hrow) as [src Hs].
    destruct (Hrows label src) as (row' & Hrow' & _ & Hrange & _);
      [by apply elem_of_map_to_list|].
    simplify_eq. by destruct (Hrange task l Hl).
  - intros label task. unfold peak_of, base_of, py_in.
    destruct (user_peak_params !! label) as [src|] eqn:Hl; simpl.
    + destruct (Hrows label src) as (row & Hrow & Hdom & Hrange & _);
        [by apply elem_of_map_to_list|].
      rewrite Hrow. simpl. case_bool_decide as Ht.
      * apply Hdom in Ht as [l Hl']. rewrite Hl'. simpl.
        by destruct (Hrange task l Hl').
      * destruct (row !! task) as [l|] eqn:Hl'; [|done].
        exfalso. apply Ht, Hdom. eauto.
    + destruct (params !! label) as [row|] eqn:Hrow; simpl.
      * destruct (Hitem _ _ Hrow). congruence.
      * by case_bool_decide.
Qed.

(** One [params[label][task][1] = x] on a table without sharing. *)
Lemma setitem_spec (params : gmap string (gmap string nat))
    (h : list (list float)) (n : nat) (label task : string) (x : float) v :
  table_inj params → table_fresh n h params →
  peak_of h params label task = Some v → (1 < length v)%nat →
  ∃ h', setitem params label task 1 x h = Some (tt, h') ∧
        table_fresh n h' params ∧
        (∀ l, (l < n)%nat → h' !! l = h !! l) ∧
        length h' = length h ∧
        (∀ lb tk, peak_of h' params lb tk
                  = upd (peak_of h params) label task x lb tk).
Proof.
  intros Hinj Hfresh Hv Hlen. unfold peak_of in Hv.
  destruct (params !! label) as [row|] eqn:Hrow; [|done]. simpl in Hv.
  destruct (row !! task) as [l|] eqn:Hl; [|done]. simpl in Hv.
  destruct (Hfresh _ _ _ _ Hrow Hl) as [Hge Hlt].
  exists (<[l := <[1%nat := x]> v]> h). split; [|split; [|split; [|split]]].
  - unfold setitem, store. rewrite Hrow, Hl, Hv.
    case_decide; [done|lia].
  - intros lb tk r l' Hr Hl'. rewrite length_insert. eauto.
  - intros l' Hl'. apply list_lookup_insert_ne. lia.
  - apply length_insert.
  - intros lb tk. unfold upd, peak_of. case_decide as Hd.
    + destruct Hd as [-> ->]. rewrite Hrow. simpl. rewrite Hl. simpl.
      rewrite Hv. simpl. by apply list_lookup_insert_eq.
    + destruct (params !! lb) as [r|] eqn:Hr; [|done]. simpl.
      destruct (r !! tk) as [l'|] eqn:Hl'; [|done]. simpl.
      apply list_lookup_insert_ne. intros <-.
      destruct (Hinj _ _ _ _ _ _ _ Hrow Hl Hr Hl'). naive_solver.
Qed.

Lemma has_power_upd f label task x lb tk :
  has_power f lb tk → has_power (upd f label task x) lb tk.
Proof.
  intros (v & Hv & Hlen). unfold has_power, upd. case_decide.
  - exists (<[1%nat := x]> v). rewrite Hv. simpl.
    by rewrite length_insert.
  - eauto.
Qed.

(** One guarded block of lines 72-82: two in-place updates under a
    membership test. *)
Lemma store_block (params : gmap string (gmap string nat)) (n : nat)
    (b : bool) (task la lb : string) (xa xb : float)
    (h : list (list float)) f :
  table_inj params → table_fresh n h params →
  (∀ l t, peak_of h params l t = f l t) →
  (b = true → has_power f la task ∧ has_power f lb task) →
  ∃ h',
    (if b then
       let* _ := setitem params la task 1 xa in
       setitem params lb task 1 xb
     else ret tt) h = Some (tt, h') ∧
    table_fresh n h' params ∧
    (∀ l, (l < n)%nat → h' !! l = h !! l) ∧
    length h' = length h ∧
    (∀ l t, peak_of h' params l t
            = (if b then upd (upd f la task xa) lb task xb else f) l t).
Proof.
  intros Hinj Hfresh Hview Hpow. destruct b.
  - destruct Hpow as [(va & Hva & Hla) Hb]; [done|].
    rewrite <- Hview in Hva.
    destruct (setitem_spec params h n la task xa va)
      as (h1 & Hrun1 & Hfresh1 & Hframe1 & Hlen1 & Hview1); try done.
    assert (Hb1 : has_power (peak_of h1 params) lb task).
    { destruct (has_power_upd f la task xa lb task Hb) as (v & Hv & ?).
      exists v. by rewrite Hview1, <- Hv; unfold upd; rewrite !Hview. }
    destruct Hb1 as (vb & Hvb & Hlb).
    destruct (setitem_spec params h1 n lb task xb vb)
      as (h2 & Hrun2 & Hfresh2 & Hframe2 & Hlen2 & Hview2); try done.
    exists h2. split; [|split; [|split; [|split]]]; try done.
    + unfold bind. by rewrite Hrun1.
    + intros l Hl. rewrite Hframe2, Hframe1; done.
    + congruence.
    + intros l t. rewrite Hview2. unfold upd. rewrite !Hview1.
      unfold upd. by rewrite !Hview.
  - exists h. split; [done|]. split; [done|]. split; [done|]. by split.
Qed.

Lemma peak_table_wf_lookup (h : list (list float))
    (user_peak_params : gmap string nat) (label : string) (src : nat) :
  peak_table_wf h user_peak_params →
  user_peak_params !! label = Some src →
  ∃ v, h !! src = Some v ∧ length v = 3%nat.
Proof.
  intros Hwf Hl. specialize (Hwf _ _ Hl). simpl in Hwf.
  destruct (h !! src) as [v|]; [|done]. exists v. split; [done|].
  by injection Hwf.
Qed.

(** [set_peak_amplitudes] refines the resolver of the specification: it
    returns, leaves every list object of the caller untouched, and the
    table it builds reads back as [resolved] of the base values. *)
Lemma set_peak_amplitudes_spec (MI_tasks : list string)
    (user_peak_params : gmap string nat) (reduction : float)
    (h : list (list float)) :
  peak_table_wf h user_peak_params →
  is_Some (user_peak_params !! "G_precentral-lh") →
  is_Some (user_peak_params !! "G_precentral-rh") →
  ∃ params h',
    set_peak_amplitudes MI_tasks user_peak_params reduction h
      = Some (params, h') ∧
    table_inj params ∧
    table_fresh (length h) h' params ∧
    (∀ l, (l < length h)%nat → h' !! l = h !! l) ∧
    (∀ label task,
       peak_of h' params label task
       = resolved MI_tasks (base_of h user_peak_params) reduction label task).
Proof.
  intros Hwf [sl Hsl] [sr Hsr].
  destruct (peak_table_wf_lookup _ _ _ _ Hwf Hsl) as (vl & Hvl & Hll).
  destruct (peak_table_wf_lookup _ _ _ _ Hwf Hsr) as (vr & Hvr & Hlr).
  destruct (copy_phase MI_tasks user_peak_params h)
    as (params & ext & Hrun & Hinj & Hfresh0 & Hview0).
  { intros label src Hl.
    destruct (peak_table_wf_lookup _ _ _ _ Hwf Hl) as (v & -> & _). eauto. }
  set (f0 := λ label task : string,
         if py_in task MI_tasks then base_of h user_peak_params label
         else None) in *.
  assert (Hpow0 : ∀ label task, py_in task MI_tasks = true →
            label = "G_precentral-lh" ∨ label = "G_precentral-rh" →
            has_power f0 label task).
  { intros label task Ht Hl. unfold has_power, f0, base_of. rewrite Ht.
    destruct Hl as [-> | ->].
    - exists vl. rewrite Hsl. simpl. split; [done|lia].
    - exists vr. rewrite Hsr. simpl. split; [done|lia]. }
  set (n := length h).
  destruct (store_block params n (py_in "MI/left" MI_tasks) "MI/left"
              "G_precentral-lh" "G_precentral-rh"
              0.4%float (0.4 * (1 - reduction))%float (h ++ ext) f0)
    as (h1 & Hrun1 & Hfresh1 & Hframe1 & Hlen1 & Hview1); try done.
  { intros Hb. split; apply Hpow0; auto. }
  set (f1 := if py_in "MI/left" MI_tasks
             then upd (upd f0 "G_precentral-lh" "MI/left" 0.4%float)
                    "G_precentral-rh" "MI/left" (0.4 * (1 - reduction))%float
             else f0) in *.
  assert (Hpow1 : ∀ label task, has_power f0 label task →
                    has_power f1 label task).
  { intros label task Hp. unfold f1.
    destruct (py_in "MI/left" MI_tasks); [|done].
    by do 2 apply has_power_upd. }
  destruct (store_block params n (py_in "MI/right" MI_tasks) "MI/right"
              "G_precentral-rh" "G_precentral-lh"
              0.4%float (0.4 * (1 - reduction))%float h1 f1)
    as (h2 & Hrun2 & Hfresh2 & Hframe2 & Hlen2 & Hview2); try done.
  { intros Hb. split; apply Hpow1, Hpow0; auto. }
  set (f2 := if py_in "MI/right" MI_tasks
             then upd (upd f1 "G_precentral-rh" "MI/right" 0.4%float)
                    "G_precentral-lh" "MI/right" (0.4 * (1 - reduction))%float
             else f1) in *.
  assert (Hpow2 : ∀ label task, has_power f1 label task →
                    has_power f2 label task).
  { intros label task Hp. unfold f2.
    destruct (py_in "MI/right" MI_tasks); [|done].
    by do 2 apply has_power_upd. }
  destruct (store_block params n (py_in "rest" MI_tasks) "rest"
              "G_precentral-rh" "G_precentral-lh"
              0.4%float 0.4%float h2 f2)
    as (h3 & Hrun3 & Hfresh3 & Hframe3 & Hlen3 & Hview3); try done.
  { intros Hb. split; apply Hpow2, Hpow1, Hpow0; auto. }
  exists params, h3. split; [|split; [done|split; [done|split]]].
  - unfold set_peak_amplitudes, bind at 1. rewrite Hrun.
    unfold bind at 1. rewrite Hrun1. unfold bind at 1. rewrite Hrun2.
    unfold bind at 1. rewrite Hrun3. done.
  - intros l Hl. rewrite Hframe3, Hframe2, Hframe1 by done.
    by apply lookup_app_l.
  - intros label task. rewrite Hview3. unfold f2, f1, f0, resolved.
    destruct (py_in "MI/left" MI_tasks) eqn:Hleft;
      destruct (py_in "MI/right" MI_tasks) eqn:Hright;
      destruct (py_in "rest" MI_tasks) eqn:Hrest;
      unfold upd, erd_level;
      repeat (case_decide; destruct_and?; simplify_eq);
      rewrite ?Hleft, ?Hright, ?Hrest; simpl;
      try done;
      try match goal with
          | H : ¬ (?a = ?a ∧ ?b = ?b) |- _ => by destruct H
          end;
      try (by destruct (py_in task MI_tasks);
             [destruct (base_of h user_peak_params label)|]);
      by destruct (base_of h user_peak_params _).
Qed.

Lemma resolved_power (MI_tasks : list string)
    (base : string → option (list float)) (reduction : float)
    (label task : string) (v : list float) (x : float) :
  task ∈ MI_tasks → base label = Some v → length v = 3%nat →
  erd_level reduction label task = Some x →
  resolved MI_tasks base reduction label task ≫= (.!! 1%nat) = Some x.
Proof.
  intros Ht Hv Hlen Hx. unfold resolved, py_in.
  rewrite bool_decide_eq_true_2 by done. rewrite Hv. simpl. rewrite Hx.
  simpl. apply list_lookup_insert_eq. lia.
Qed.

(** C1. For a base table of triples that has both precentral labels,
    [set_peak_amplitudes] returns, and the relative-power entry (index 1)
    of the returned table is 0.4 on the left and [0.4 * (1 - reduction)] on
    the right label for a requested ['MI/left'], the mirror image for a
    requested ['MI/right'], and 0.4 on both labels for a requested ['rest'].
    With [reduction = 0.5] the right label under ['MI/left'] holds 0.2 and
    the left label 0.4. *)
Theorem C1_set_peak_amplitudes_power (MI_tasks : list string)
    (user_peak_params : gmap string nat) (reduction : float)
    (h : list (list float)) :
  peak_table_wf h user_peak_params →
  is_Some (user_peak_params !! "G_precentral-lh") →
  is_Some (user_peak_params !! "G_precentral-rh") →
  ∃ params h',
    set_peak_amplitudes MI_tasks user_peak_params reduction h
      = Some (params, h') ∧
    ("MI/left" ∈ MI_tasks →
       power_of h' params "G_precentral-lh" "MI/left" = Some 0.4%float ∧
       power_of h' params "G_precentral-rh" "MI/left"
         = Some (0.4 * (1 - reduction))%float) ∧
    ("MI/right" ∈ MI_tasks →
       power_of h' params "G_precentral-rh" "MI/right" = Some 0.4%float ∧
       power_of h' params "G_precentral-lh" "MI/right"
         = Some (0.4 * (1 - reduction))%float) ∧
    ("rest" ∈ MI_tasks →
       power_of h' params "G_precentral-rh" "rest" = Some 0.4%float ∧
       power_of h' params "G_precentral-lh" "rest" = Some 0.4%float) ∧
    (reduction = 0.5%float → "MI/left" ∈ MI_tasks →
       power_of h' params "G_precentral-rh" "MI/left" = Some 0.2%float ∧
       power_of h' params "G_precentral-lh" "MI/left" = Some 0.4%float).
Proof.
  intros Hwf Hl Hr.
  destruct (set_peak_amplitudes_spec MI_tasks user_peak_params reduction h)
    as (params & h' & Hrun & _ & _ & _ & Hview); try done.
  destruct Hl as [sl Hsl], Hr as [sr Hsr].
  destruct (peak_table_wf_lookup _ _ _ _ Hwf Hsl) as (vl & Hvl & Hll).
  destruct (peak_table_wf_lookup _ _ _ _ Hwf Hsr) as (vr & Hvr & Hlr).
  assert (Hbl : base_of h user_peak_params "G_precentral-lh" = Some vl)
    by (unfold base_of; rewrite Hsl; done).
  assert (Hbr : base_of h user_peak_params "G_precentral-rh" = Some vr)
    by (unfold base_of; rewrite Hsr; done).
  assert (Hp : ∀ label task v x, task ∈ MI_tasks →
            base_of h user_peak_params label = Some v → length v = 3%nat →
            erd_level reduction label task = Some x →
            power_of h' params label task = Some x).
  { intros label task v x Ht Hv Hlen Hx. unfold power_of. rewrite Hview.
    by eapply resolved_power. }
  exists params, h'. split; [done|].
  split; [|split; [|split]].
  - intros Ht. split; eapply Hp; done.
  - intros Ht. split; eapply Hp; done.
  - intros Ht. split; eapply Hp; done.
  - intros -> Ht. split; eapply Hp; done.
Qed.

(** A run of C1 on a table with three labels and all three tasks. *)
Lemma C1_set_peak_amplitudes_power_witness :
  ∃ params h',
    set_peak_amplitudes ["MI/left"; "MI/right"; "rest"]
      {[ "G_precentral-lh" := 0%nat; "G_precentral-rh" := 1%nat;
         "G_postcentral-lh" := 2%nat ]} 0.5%float
      [[10; 0.3; 2]; [11; 0.35; 2.5]; [9; 0.1; 1]]%float = Some (params, h') ∧
    power_of h' params "G_precentral-rh" "MI/left" = Some 0.2%float ∧
    power_of h' params "G_precentral-lh" "MI/left" = Some 0.4%float.
Proof.
  destruct (C1_set_peak_amplitudes_power ["MI/left"; "MI/right"; "rest"]
              {[ "G_precentral-lh" := 0%nat; "G_precentral-rh" := 1%nat;
                 "G_postcentral-lh" := 2%nat ]} 0.5%float
              [[10; 0.3; 2]; [11; 0.35; 2.5]; [9; 0.1; 1]]%float)
    as (params & h' & Hrun & _ & _ & _ & Hhalf).
  - compute_done.
  - vm_compute. eauto.
  - vm_compute. eauto.
  - exists params, h'. split; [exact Hrun|].
    apply Hhalf; [reflexivity|compute_done].
Defined.

Lemma peak_table_wf_frame (h h' : list (list float))
    (user_peak_params : gmap string nat) :
  peak_table_wf h user_peak_params →
  (∀ l, (l < length h)%nat → h' !! l = h !! l) →
  peak_table_wf h' user_peak_params ∧
  ∀ label, base_of h' user_peak_params label = base_of h user_peak_params label.
Proof.
  intros Hwf Hframe.
  assert (Hsrc : ∀ label src, user_peak_params !! label = Some src →
            h' !! src = h !! src).
  { intros label src Hl.
    destruct (peak_table_wf_lookup _ _ _ _ Hwf Hl) as (v & Hv & _).
    apply Hframe. by eapply lookup_lt_Some. }
  split.
  - intros label src Hl. simpl. rewrite (Hsrc _ _ Hl). by apply (Hwf label).
  - intros label. unfold base_of.
    destruct (user_peak_params !! label) as [src|] eqn:Hl; [|done].
    simpl. eauto.
Qed.

(** C9. [set_peak_amplitudes] called twice on the same tasks, base table and
    reduction returns both times, with tables that read back equal; neither
    call changes a list object of the caller, so the base table is unchanged;
    and an in-place update of one entry of the returned table, at any index,
    changes no other entry of it and no list object of the caller. *)
Theorem C9_set_peak_amplitudes_idempotent (MI_tasks : list string)
    (user_peak_params : gmap string nat) (reduction : float)
    (h : list (list float)) :
  peak_table_wf h user_peak_params →
  is_Some (user_peak_params !! "G_precentral-lh") →
  is_Some (user_peak_params !! "G_precentral-rh") →
  ∃ params1 h1 params2 h2,
    set_peak_amplitudes MI_tasks user_peak_params reduction h
      = Some (params1, h1) ∧
    set_peak_amplitudes MI_tasks user_peak_params reduction h1
      = Some (params2, h2) ∧
    (∀ label task,
       peak_of h2 params2 label task = peak_of h1 params1 label task) ∧
    (∀ label task,
       peak_of h2 params1 label task = peak_of h1 params1 label task) ∧
    (∀ l, (l < length h)%nat → h1 !! l = h !! l ∧ h2 !! l = h !! l) ∧
    (∀ label,
       base_of h1 user_peak_params label = base_of h user_peak_params label ∧
       base_of h2 user_peak_params label = base_of h user_peak_params label) ∧
    (∀ label task i x hm,
       setitem params1 label task i x h1 = Some (tt, hm) →
       (∀ lb tk, ¬ (lb = label ∧ tk = task) →
          peak_of hm params1 lb tk = peak_of h1 params1 lb tk) ∧
       (∀ lb, base_of hm user_peak_params lb
              = base_of h user_peak_params lb)).
Proof.
  intros Hwf Hl Hr.
  destruct (set_peak_amplitudes_spec MI_tasks user_peak_params reduction h)
    as (params1 & h1 & Hrun1 & Hinj1 & Hfresh1 & Hframe1 & Hview1); try done.
  destruct (peak_table_wf_frame h h1 user_peak_params Hwf Hframe1)
    as [Hwf1 Hbase1].
  destruct (set_peak_amplitudes_spec MI_tasks user_peak_params reduction h1)
    as (params2 & h2 & Hrun2 & Hinj2 & Hfresh2 & Hframe2 & Hview2); try done.
  destruct (peak_table_wf_frame h1 h2 user_peak_params Hwf1 Hframe2)
    as [Hwf2 Hbase2].
  exists params1, h1, params2, h2.
  split; [done|]. split; [done|]. split; [|split; [|split; [|split]]].
  - intros label task. rewrite Hview2, Hview1. unfold resolved.
    by rewrite Hbase1.
  - intros label task. unfold peak_of.
    destruct (params1 !! label) as [row|] eqn:Hrow; [|done]. simpl.
    destruct (row !! task) as [l|] eqn:Hl'; [|done]. simpl.
    apply Hframe2. by destruct (Hfresh1 _ _ _ _ Hrow Hl').
  - intros l Hlt. split; [by apply Hframe1|].
    rewrite Hframe2; [by apply Hframe1|].
    assert (is_Some (h1 !! l)) as [v Hv].
    { rewrite Hframe1 by done. by apply lookup_lt_is_Some. }
    by eapply lookup_lt_Some.
  - intros label. split; [done|]. by rewrite Hbase2.
  - intros label task i x hm Hset. unfold setitem in Hset.
    destruct (params1 !! label) as [row|] eqn:Hrow; [|done].
    destruct (row !! task) as [l|] eqn:Hl'; [|done].
    unfold store in Hset.
    destruct (h1 !! l) as [v|] eqn:Hv; [|done].
    case_decide; [|done]. simplify_eq.
    destruct (Hfresh1 _ _ _ _ Hrow Hl') as [Hge Hlt].
    split.
    + intros lb tk Hne. unfold peak_of.
      destruct (params1 !! lb) as [r|] eqn:Hr'; [|done]. simpl.
      destruct (r !! tk) as [l'|] eqn:Hl''; [|done]. simpl.
      apply list_lookup_insert_ne. intros <-.
      destruct (Hinj1 _ _ _ _ _ _ _ Hrow Hl' Hr' Hl''). naive_solver.
    + intros lb. rewrite <- Hbase1. unfold base_of.
      destruct (user_peak_params !! lb) as [src|] eqn:Hs; [|done]. simpl.
      apply list_lookup_insert_ne. intros <-.
      destruct (peak_table_wf_lookup _ _ _ _ Hwf Hs) as (w & Hw & _).
      apply lookup_lt_Some in Hw. lia.
Qed.

(** A run of C9 on a table with two labels. *)
Lemma C9_set_peak_amplitudes_idempotent_witness :
  ∃ params1 h1 params2 h2,
    set_peak_amplitudes ["MI/left"; "MI/right"]
      {[ "G_precentral-lh" := 0%nat; "G_precentral-rh" := 1%nat ]} 0.5%float
      [[10; 0.3; 2]; [11; 0.35; 2.5]]%float = Some (params1, h1) ∧
    set_peak_amplitudes ["MI/left"; "MI/right"]
      {[ "G_precentral-lh" := 0%nat; "G_precentral-rh" := 1%nat ]} 0.5%float
      h1 = Some (params2, h2) ∧
    (∀ label task,
       peak_of h2 params2 label task = peak_of h1 params1 label task).
Proof.
  destruct (C9_set_peak_amplitudes_idempotent ["MI/left"; "MI/right"]
              {[ "G_precentral-lh" := 0%nat; "G_precentral-rh" := 1%nat ]}
              0.5%float [[10; 0.3; 2]; [11; 0.35; 2.5]]%float)
    as (params1 & h1 & params2 & h2 & Hrun1 & Hrun2 & Hsame & _).
  - compute_done.
  - vm_compute. eauto.
  - vm_compute. eauto.
  - exists params1, h1, params2, h2. auto.
Defined.

Example generate_when_run :
  generate_when (λ l, rev l) [4000; 3000] 4 250 true 2000 true 5000
  = Some [Event 0 0 2; Event 1250 0 1; Event 2000 0 3; Event 2500 0 0;
          Event 3500 0 3; Event 4000 0 1; Event 4750 0 3; Event 5250 0 0;
          Event 6250 0 3].
Proof. vm_compute. reflexivity. Qed.

(** ** The loop of [generate_when] *)

(** A segment written at the first unwritten row. *)
Lemma emit_spec (pre : list event) (m : nat) (t class : Z)
    (duration_tmp : option Z) (st' : when_state) :
  emit (WhenState (pre ++ replicate m zero_row) (length pre) t)
    class duration_tmp = Some st' →
  ∃ d m',
    duration_tmp = Some d ∧ m = S m' ∧
    int32_ok t = true ∧ int32_ok class = true ∧
    st' = WhenState ((pre ++ [Event t 0 class]) ++ replicate m' zero_row)
            (length (pre ++ [Event t 0 class])) (t + d).
Proof.
  unfold emit, set_onset, set_class. simpl. intros Hrun.
  destruct m as [|m'].
  { rewrite app_nil_r in Hrun. simpl in Hrun.
    by rewrite (lookup_ge_None_2 pre (length pre)) in Hrun by lia. }
  rewrite lookup_app_r in Hrun by lia.
  rewrite Nat.sub_diag in Hrun. simpl in Hrun.
  destruct (int32_ok t) eqn:Ht; [|done]. simpl in Hrun.
  rewrite insert_app_r_alt in Hrun by lia.
  rewrite Nat.sub_diag in Hrun. simpl in Hrun.
  rewrite lookup_app_r in Hrun by lia.
  rewrite Nat.sub_diag in Hrun. simpl in Hrun.
  destruct (int32_ok class) eqn:Hc; [|done]. simpl in Hrun.
  destruct duration_tmp as [d|]; [|done]. simpl in Hrun.
  rewrite insert_app_r_alt in Hrun by lia.
  rewrite Nat.sub_diag in Hrun. simpl in Hrun.
  exists d, m'. repeat split; try done.
  injection Hrun as <-. rewrite <- app_assoc. simpl.
  rewrite length_app. simpl. f_equal. lia.
Qed.

Lemma timeline_app (t : Z) (segs1 segs2 : list (Z * Z)) :
  timeline t (segs1 ++ segs2)
  = timeline t segs1 ++ timeline (t + span segs1) segs2.
Proof.
  revert t. induction segs1 as [|[c d] segs1 IH]; intros t; simpl.
  - by rewrite Z.add_0_r.
  - rewrite IH. do 3 f_equal. lia.
Qed.

Lemma timeline_length (t : Z) (segs : list (Z * Z)) :
  length (timeline t segs) = length segs.
Proof.
  revert t. induction segs as [|[c d] segs IH]; intros t; simpl; [done|].
  by rewrite IH.
Qed.

(** The loop over the trials writes the timeline of their segments into the
    first unwritten rows and leaves the rows after them as allocated. *)
Lemma trial_loop_spec (events_info : list Z) (sfreq : Z)
    (include_rest : bool) (rest_duration : Z) (trials_ID : list nat) :
  ∀ (pre : list event) (m : nat) (t : Z) (st' : when_state),
    trial_loop events_info sfreq include_rest rest_duration trials_ID
      (WhenState (pre ++ replicate m zero_row) (length pre) t) = Some st' →
    ∃ m',
      m = (length (trial_segments events_info sfreq include_rest
                     rest_duration trials_ID) + m')%nat ∧
      st' = WhenState
              ((pre ++ timeline t (trial_segments events_info sfreq
                                     include_rest rest_duration trials_ID))
               ++ replicate m' zero_row)
              (length (pre ++ timeline t (trial_segments events_info sfreq
                                     include_rest rest_duration trials_ID)))
              (t + span (trial_segments events_info sfreq include_rest
                           rest_duration trials_ID)).
Proof.
  induction trials_ID as [|event_ID trials_ID IH]; intros pre m t st' Hrun.
  - simpl in *. injection Hrun as <-. exists m.
    rewrite app_nil_r, Z.add_0_r. done.
  - simpl in Hrun. unfold trial_step in Hrun.
    destruct (events_info !! event_ID) as [duration|] eqn:Hd; [|done].
    simpl in Hrun.
    destruct (emit _ (Z.of_nat event_ID) _) as [st1|] eqn:He1; [|done].
    simpl in Hrun.
    apply emit_spec in He1 as (d & m1 & Hds & -> & _ & _ & ->).
    assert (Hsamples : samples (default 0 (events_info !! event_ID)) sfreq = d)
      by (unfold samples; rewrite Hd; simpl; rewrite Hds; done).
    destruct include_rest.
    + destruct (emit _ _ _) as [st2|] eqn:He2 in Hrun; [|done].
      simpl in Hrun.
      apply emit_spec in He2 as (dr & m2 & Hdr & -> & _ & _ & ->).
      assert (Hrest : samples rest_duration sfreq = dr)
        by (unfold samples; rewrite Hdr; done).
      apply IH in Hrun as (m' & -> & ->). exists m'.
      simpl. rewrite Hsamples, Hrest. split; [lia|].
      rewrite <- !app_assoc. simpl. f_equal; try lia.
    + apply IH in Hrun as (m' & -> & ->). exists m'.
      simpl. rewrite Hsamples. split; [lia|].
      rewrite <- !app_assoc. simpl. f_equal; try lia.
Qed.

(** The array [generate_when] returns: the timeline of the segments, then
    the rows that no segment reached, still zero. *)
Lemma generate_when_spec (permutation : list nat → list nat)
    (events_info : list Z) (N_trials : nat) (sfreq : Z)
    (include_rest : bool) (rest_duration : Z)
    (include_baseline : bool) (baseline_duration : Z) (evs : list event) :
  generate_when permutation events_info N_trials sfreq include_rest
    rest_duration include_baseline baseline_duration = Some evs →
  ∃ pad,
    (0 < length events_info)%nat ∧
    let segs :=
      segments events_info sfreq include_rest rest_duration
        include_baseline baseline_duration
        (permutation (repmat_arange (length events_info)
                        (N_trials / length events_info))) in
    n_rows N_trials include_rest include_baseline = (length segs + pad)%nat ∧
    evs = timeline 0 segs ++ replicate pad zero_row.
Proof.
  unfold generate_when, balanced_trials_ID. intros Hrun.
  destruct (length events_info) as [|c] eqn:Hc; [done|]. simpl in Hrun.
  set (trials := permutation _) in *.
  set (rows := n_rows N_trials include_rest include_baseline) in *.
  rewrite <- Hc in *. unfold segments.
  destruct include_baseline.
  - destruct (emit _ _ _) as [st1|] eqn:He1 in Hrun; [|done].
    simpl in Hrun. unfold np_zeros in He1.
    apply (emit_spec [] rows) in He1 as (d & m1 & Hd & Hrows & _ & _ & ->).
    destruct (trial_loop _ _ _ _ _ _) as [st2|] eqn:Hl in Hrun; [|done].
    simpl in Hrun. injection Hrun as <-.
    apply (trial_loop_spec _ _ _ _ _ [Event 0 0 _]) in Hl as (m' & -> & ->).
    exists m'. split; [lia|]. cbv zeta. split.
    + rewrite Hrows. simpl. lia.
    + simpl. unfold samples. rewrite Hd. simpl. done.
  - simpl in Hrun.
    destruct (trial_loop _ _ _ _ _ _) as [st2|] eqn:Hl in Hrun; [|done].
    simpl in Hrun. injection Hrun as <-. unfold np_zeros in Hl.
    apply (trial_loop_spec _ _ _ _ _ [] rows) in Hl as (m' & Hrows & ->).
    exists m'. split; [lia|]. cbv zeta. simpl. done.
Qed.

(** *** Counting segments and rows *)

Lemma repmat_arange_length (N_classes k : nat) :
  length (repmat_arange N_classes k) = (N_classes * k)%nat.
Proof.
  unfold repmat_arange. induction k as [|k IH]; simpl; [lia|].
  rewrite length_app, length_seq, IH. lia.
Qed.

Lemma trial_segments_length (events_info : list Z) (sfreq : Z)
    (include_rest : bool) (rest_duration : Z) (trials_ID : list nat) :
  length (trial_segments events_info sfreq include_rest rest_duration
            trials_ID)
  = ((if include_rest then 2 else 1) * length trials_ID)%nat.
Proof.
  unfold trial_segments.
  induction trials_ID as [|id trials_ID IH]; simpl; [lia|].
  rewrite length_app, IH. destruct include_rest; simpl; lia.
Qed.

Lemma segments_length (events_info : list Z) (sfreq : Z)
    (include_rest : bool) (rest_duration : Z)
    (include_baseline : bool) (baseline_duration : Z)
    (trials_ID : list nat) :
  length (segments events_info sfreq include_rest rest_duration
            include_baseline baseline_duration trials_ID)
  = ((if include_baseline then 1 else 0)
     + (if include_rest then 2 else 1) * length trials_ID)%nat.
Proof.
  unfold segments. rewrite length_app, trial_segments_length.
  by destruct include_baseline.
Qed.

(** The rows the segments do not reach: one per trial left out of the
    balanced sequence, two when rest segments are written. *)
Lemma generate_when_pad (permutation : list nat → list nat)
    (events_info : list Z) (N_trials : nat) (sfreq : Z)
    (include_rest : bool) (rest_duration : Z)
    (include_baseline : bool) (baseline_duration : Z) (pad : nat) :
  (0 < length events_info)%nat →
  permutation (repmat_arange (length events_info)
                 (N_trials / length events_info))
    ≡ₚ repmat_arange (length events_info) (N_trials / length events_info) →
  n_rows N_trials include_rest include_baseline
  = (length (segments events_info sfreq include_rest rest_duration
               include_baseline baseline_duration
               (permutation (repmat_arange (length events_info)
                               (N_trials / length events_info)))) + pad)%nat →
  pad = ((if include_rest then 2 else 1)
         * (N_trials `mod` length events_info))%nat.
Proof.
  intros Hc Hperm. rewrite segments_length.
  rewrite (Permutation_length Hperm), repmat_arange_length.
  pose proof (Nat.div_mod_eq N_trials (length events_info)) as Hdiv.
  unfold n_rows. destruct include_baseline, include_rest; lia.
Qed.

(** C4. The array [generate_when] returns has
    [N_trials + (1 if include_baseline) + (N_trials if include_rest)] rows. *)
Theorem C4_generate_when_rows (permutation : list nat → list nat)
    (events_info : list Z) (N_trials : nat) (sfreq : Z)
    (include_rest : bool) (rest_duration : Z)
    (include_baseline : bool) (baseline_duration : Z) (evs : list event) :
  generate_when permutation events_info N_trials sfreq include_rest
    rest_duration include_baseline baseline_duration = Some evs →
  length evs
  = (N_trials + (if include_baseline then 1 else 0)
     + (if include_rest then N_trials else 0))%nat.
Proof.
  intros Hrun. apply generate_when_spec in Hrun as (pad & _ & Hrows & ->).
  cbv zeta in Hrows.
  rewrite length_app, timeline_length, length_replicate, <- Hrows.
  unfold n_rows. destruct include_baseline, include_rest; lia.
Qed.

(** C4 on 40 trials of two classes with a baseline and no rest: 41 rows. *)
Lemma C4_generate_when_rows_witness :
  ∃ evs,
    generate_when (λ l, rev l) [4000; 4000] 40 250 false 2000 true 5000
      = Some evs ∧
    length evs = 41%nat.
Proof.
  destruct (generate_when (λ l, rev l) [4000; 4000] 40 250 false 2000 true
              5000) as [evs|] eqn:Hrun; [|by vm_compute in Hrun].
  exists evs. split; [reflexivity|].
  exact (C4_generate_when_rows _ _ _ _ _ _ _ _ _ Hrun).
Defined.

Lemma filter_seq_eq_length (c a n : nat) :
  length (filter (λ i, i = c) (seq a n))
  = if decide (a ≤ c < a + n)%nat then 1%nat else 0%nat.
Proof.
  revert a. induction n as [|n IH]; intros a; simpl.
  - case_decide; [lia|done].
  - rewrite filter_cons.
    destruct (decide (a = c)); simpl; rewrite IH; repeat case_decide; lia.
Qed.

Lemma repmat_arange_count (N_classes k c : nat) :
  (c < N_classes)%nat →
  length (filter (λ i, i = c) (repmat_arange N_classes k)) = k.
Proof.
  intros Hc. unfold repmat_arange. induction k as [|k IH]; simpl; [done|].
  rewrite filter_app, length_app, IH, filter_seq_eq_length.
  case_decide; lia.
Qed.

Lemma rows_of_class_timeline (c t : Z) (segs : list (Z * Z)) :
  length (rows_of_class c (timeline t segs))
  = length (filter (λ seg, fst seg = c) segs).
Proof.
  unfold rows_of_class. revert t.
  induction segs as [|[c' d] segs IH]; intros t; simpl; [done|].
  rewrite !filter_cons. simpl.
  destruct (decide (c' = c)); simpl; by rewrite (IH (t + d)).
Qed.

Lemma trial_segments_count (events_info : list Z) (sfreq : Z)
    (include_rest : bool) (rest_duration : Z) (trials_ID : list nat)
    (c : nat) :
  (c < length events_info)%nat →
  length (filter (λ seg, fst seg = Z.of_nat c)
            (trial_segments events_info sfreq include_rest rest_duration
               trials_ID))
  = length (filter (λ i, i = c) trials_ID).
Proof.
  intros Hc. unfold trial_segments.
  induction trials_ID as [|id trials_ID IH]; simpl; [done|].
  rewrite !filter_cons. simpl.
  assert (Hrest : filter (λ seg : Z * Z, seg.1 = Z.of_nat c)
            (if include_rest
             then [(Z.of_nat (length events_info) + 1,
                    samples rest_duration sfreq)]
             else []) = []).
  { destruct include_rest; [|done]. rewrite filter_cons. simpl.
    case_decide; [lia|done]. }
  destruct (decide (Z.of_nat id = Z.of_nat c)), (decide (id = c));
    simpl; rewrite ?filter_app, ?length_app, Hrest, IH; simpl; lia.
Qed.

(** C6. When [N_trials] is a multiple of the number of classes, every class
    id [c] below the number of classes labels exactly
    [N_trials / N_classes] rows of the returned array, whatever permutation
    the generator drew. *)
Theorem C6_generate_when_balanced (permutation : list nat → list nat)
    (events_info : list Z) (N_trials : nat) (sfreq : Z)
    (include_rest : bool) (rest_duration : Z)
    (include_baseline : bool) (baseline_duration : Z) (evs : list event)
    (c : nat) :
  permutation (repmat_arange (length events_info)
                 (N_trials / length events_info))
    ≡ₚ repmat_arange (length events_info) (N_trials / length events_info) →
  (N_trials `mod` length events_info = 0)%nat →
  generate_when permutation events_info N_trials sfreq include_rest
    rest_duration include_baseline baseline_duration = Some evs →
  (c < length events_info)%nat →
  length (rows_of_class (Z.of_nat c) evs)
  = (N_trials / length events_info)%nat.
Proof.
  intros Hperm Hmod Hrun Hc.
  apply generate_when_spec in Hrun as (pad & Hpos & Hrows & ->).
  cbv zeta in Hrows.
  eapply generate_when_pad in Hrows; [|done|done].
  rewrite Hmod, Nat.mul_0_r in Hrows. subst pad. simpl.
  rewrite app_nil_r, rows_of_class_timeline. unfold segments.
  rewrite filter_app, length_app, trial_segments_count by done.
  rewrite (Permutation_length (filter_Permutation _ _ _ Hperm)).
  rewrite repmat_arange_count by done.
  destruct include_baseline; [|done].
  rewrite filter_cons. simpl. case_decide; [lia|done].
Qed.

(** C6 on 40 trials of two classes: 20 rows of class 1. *)
Lemma C6_generate_when_balanced_witness :
  ∃ evs,
    generate_when (λ l, rev l) [4000; 3000] 40 250 true 2000 true 5000
      = Some evs ∧
    length (rows_of_class 1 evs) = 20%nat.
Proof.
  destruct (generate_when (λ l, rev l) [4000; 3000] 40 250 true 2000 true
              5000) as [evs|] eqn:Hrun; [|by vm_compute in Hrun].
  exists evs. split; [reflexivity|].
  refine (C6_generate_when_balanced (λ l, rev l) [4000; 3000] 40 250 true
            2000 true 5000 evs 1 _ _ Hrun _).
  - apply Permutation_sym, Permutation_rev.
  - reflexivity.
  - simpl. lia.
Defined.

(** *** Onsets *)

Lemma timeline_onset (segs : list (Z * Z)) :
  ∀ (t : Z) (i : nat) (e : event),
    timeline t segs !! i = Some e →
    onset_sample e = t + span (take i segs).
Proof.
  induction segs as [|[c d] segs IH]; intros t i e Hi; [done|].
  destruct i as [|i]; simpl in *.
  - injection Hi as <-. simpl. lia.
  - apply IH in Hi. rewrite Hi. lia.
Qed.

Lemma timeline_increasing (segs : list (Z * Z)) :
  ∀ t : Z,
    Forall (λ seg, 1 ≤ snd seg) segs →
    strictly_increasing (onset_sample <$> timeline t segs).
Proof.
  induction segs as [|[c d] segs IH]; intros t Hpos; [done|].
  apply Forall_cons in Hpos as [Hd Hpos]. simpl in Hd.
  specialize (IH (t + d) Hpos). simpl.
  destruct segs as [|[c' d'] segs]; [done|]. simpl in *.
  split; [lia|done].
Qed.

Lemma strictly_increasing_first_last (l : list Z) :
  ∀ x y : Z, strictly_increasing (x :: l ++ [y]) → x < y.
Proof.
  induction l as [|z l IH]; intros x y Hinc; simpl in Hinc.
  - by destruct Hinc.
  - destruct Hinc as [Hxz Hinc]. apply IH in Hinc. lia.
Qed.

Lemma repmat_arange_elem (N_classes k i : nat) :
  i ∈ repmat_arange N_classes k → (i < N_classes)%nat.
Proof.
  unfold repmat_arange. induction k as [|k IH]; simpl.
  - intros Hin. by apply elem_of_nil in Hin.
  - intros Hin. apply elem_of_app in Hin as [Hin|Hin]; [|by apply IH].
    apply elem_of_seq in Hin. lia.
Qed.

Lemma segments_positive (events_info : list Z) (sfreq : Z)
    (include_rest : bool) (rest_duration : Z)
    (include_baseline : bool) (baseline_duration : Z)
    (trials_ID : list nat) :
  Forall (λ duration, 1 ≤ samples duration sfreq) events_info →
  (include_rest = true → 1 ≤ samples rest_duration sfreq) →
  (include_baseline = true → 1 ≤ samples baseline_duration sfreq) →
  Forall (λ i, i < length events_info)%nat trials_ID →
  Forall (λ seg, 1 ≤ snd seg)
    (segments events_info sfreq include_rest rest_duration
       include_baseline baseline_duration trials_ID).
Proof.
  intros Hinfo Hrest Hbase Hids. unfold segments. apply Forall_app. split.
  - destruct include_baseline; [|done]. apply Forall_singleton. auto.
  - unfold trial_segments.
    induction Hids as [|id trials_ID Hid Hids IH]; simpl; [done|].
    apply Forall_cons. split.
    + simpl. apply lookup_lt_is_Some in Hid as [d Hd]. rewrite Hd. simpl.
      rewrite Forall_lookup in Hinfo. by apply (Hinfo id).
    + apply Forall_app. split; [|done].
      destruct include_rest; [|done]. apply Forall_singleton. auto.
Qed.

(** C5, as amended.  When [N_trials] is a multiple of the number of classes
    and every duration in use rounds to at least one sample, the onsets of
    the returned array strictly increase, and the onset of row [i] is the sum
    of the independently rounded durations of the [i] segments before it. *)
Theorem C5_generate_when_onsets (permutation : list nat → list nat)
    (events_info : list Z) (N_trials : nat) (sfreq : Z)
    (include_rest : bool) (rest_duration : Z)
    (include_baseline : bool) (baseline_duration : Z) (evs : list event) :
  permutation (repmat_arange (length events_info)
                 (N_trials / length events_info))
    ≡ₚ repmat_arange (length events_info) (N_trials / length events_info) →
  (N_trials `mod` length events_info = 0)%nat →
  Forall (λ duration, 1 ≤ samples duration sfreq) events_info →
  (include_rest = true → 1 ≤ samples rest_duration sfreq) →
  (include_baseline = true → 1 ≤ samples baseline_duration sfreq) →
  generate_when permutation events_info N_trials sfreq include_rest
    rest_duration include_baseline baseline_duration = Some evs →
  strictly_increasing (onset_sample <$> evs) ∧
  ∀ (i : nat) (e : event),
    evs !! i = Some e →
    onset_sample e
    = span (take i (segments events_info sfreq include_rest rest_duration
                      include_baseline baseline_duration
                      (permutation (repmat_arange (length events_info)
                                      (N_trials / length events_info))))).
Proof.
  intros Hperm Hmod Hinfo Hrest Hbase Hrun.
  apply generate_when_spec in Hrun as (pad & Hpos & Hrows & ->).
  cbv zeta in Hrows.
  eapply generate_when_pad in Hrows; [|done|done].
  rewrite Hmod, Nat.mul_0_r in Hrows. subst pad. simpl.
  rewrite app_nil_r. split.
  - apply timeline_increasing, segments_positive; try done.
    apply Forall_forall. intros i Hi. rewrite Hperm in Hi.
    by apply repmat_arange_elem in Hi.
  - intros i e Hi. by apply timeline_onset in Hi.
Qed.

(** C5 on four trials of two classes with rest and baseline. *)
Lemma C5_generate_when_onsets_witness :
  ∃ evs,
    generate_when (λ l, rev l) [4000; 3000] 4 250 true 2000 true 5000
      = Some evs ∧
    strictly_increasing (onset_sample <$> evs).
Proof.
  destruct (generate_when (λ l, rev l) [4000; 3000] 4 250 true 2000 true
              5000) as [evs|] eqn:Hrun; [|by vm_compute in Hrun].
  exists evs. split; [reflexivity|].
  refine (proj1 (C5_generate_when_onsets (λ l, rev l) [4000; 3000] 4 250
                   true 2000 true 5000 evs _ _ _ _ _ Hrun)).
  - apply Permutation_sym, Permutation_rev.
  - reflexivity.
  - repeat apply Forall_cons_2; [by vm_compute..|apply Forall_nil_2].
  - intros _. by vm_compute.
  - intros _. by vm_compute.
Defined.

(** C5 as stated fails: two classes of 1 ms at 250 Hz are positive durations
    that round to 0 samples, and both events get onset 0. *)
Lemma C5_generate_when_onsets_counterexample :
  Forall (λ duration, 0 < duration) [1; 1] ∧
  generate_when (λ l, l) [1; 1] 2 250 false 2000 false 5000
    = Some [Event 0 0 0; Event 0 0 1] ∧
  ¬ strictly_increasing (onset_sample <$> [Event 0 0 0; Event 0 0 1]).
Proof.
  split; [|split].
  - repeat constructor.
  - vm_compute. reflexivity.
  - simpl. lia.
Qed.

(** C10, as amended.  When [N_trials] is not a multiple of the number of
    classes, [N_classes * (N_trials / N_classes)] trials are written; the rows
    after their segments, one per trial left over (two with rest segments),
    stay zero, so the array ends in a row of onset 0 and class 0; and once
    the array has two rows its onsets do not strictly increase. *)
Theorem C10_generate_when_truncated (permutation : list nat → list nat)
    (events_info : list Z) (N_trials : nat) (sfreq : Z)
    (include_rest : bool) (rest_duration : Z)
    (include_baseline : bool) (baseline_duration : Z) (evs : list event) :
  permutation (repmat_arange (length events_info)
                 (N_trials / length events_info))
    ≡ₚ repmat_arange (length events_info) (N_trials / length events_info) →
  (N_trials `mod` length events_info ≠ 0)%nat →
  generate_when permutation events_info N_trials sfreq include_rest
    rest_duration include_baseline baseline_duration = Some evs →
  let trials_ID :=
    permutation (repmat_arange (length events_info)
                   (N_trials / length events_info)) in
  let pad :=
    ((if include_rest then 2 else 1)
     * (N_trials `mod` length events_info))%nat in
  length trials_ID
  = (length events_info * (N_trials / length events_info))%nat ∧
  (0 < pad)%nat ∧
  evs = timeline 0 (segments events_info sfreq include_rest rest_duration
                      include_baseline baseline_duration trials_ID)
        ++ replicate pad zero_row ∧
  last evs = Some zero_row ∧
  ((2 ≤ length evs)%nat → ¬ strictly_increasing (onset_sample <$> evs)).
Proof.
  intros Hperm Hmod Hrun trials_ID pad.
  apply generate_when_spec in Hrun as (pad' & Hpos & Hrows & ->).
  cbv zeta in Hrows.
  eapply generate_when_pad in Hrows; [|done|done]. fold pad in Hrows.
  subst pad'. fold trials_ID.
  assert (Hpad : (0 < pad)%nat) by (unfold pad; destruct include_rest; lia).
  split; [|split; [done|split; [done|split]]].
  - unfold trials_ID. by rewrite (Permutation_length Hperm),
      repmat_arange_length.
  - destruct pad as [|p]; [lia|].
    rewrite replicate_S_end, app_assoc. apply last_snoc.
  - intros Hlen Hinc.
    destruct pad as [|p]; [lia|]. rewrite replicate_S_end, app_assoc in *.
    set (body := timeline 0 _ ++ replicate p zero_row) in *.
    assert (Hfirst : ∃ e rest, body = e :: rest ∧ onset_sample e = 0).
    { rewrite length_app in Hlen. simpl in Hlen. unfold body.
      destruct (segments _ _ _ _ _ _ _) as [|[c d] segs]; simpl.
      - destruct p as [|p]; [simpl in *; lia|]. simpl. eauto.
      - eauto. }
    destruct Hfirst as (e & rest & Hbody & He). rewrite Hbody in Hinc.
    rewrite fmap_app in Hinc. simpl in Hinc.
    apply (strictly_increasing_first_last (onset_sample <$> rest)) in Hinc.
    lia.
Qed.

(** C10 on five trials of two classes: four are written, one row is left. *)
Lemma C10_generate_when_truncated_witness :
  ∃ evs,
    generate_when (λ l, rev l) [4000; 3000] 5 250 false 2000 false 5000
      = Some evs ∧
    last evs = Some zero_row ∧
    ¬ strictly_increasing (onset_sample <$> evs).
Proof.
  destruct (generate_when (λ l, rev l) [4000; 3000] 5 250 false 2000 false
              5000) as [evs|] eqn:Hrun; [|by vm_compute in Hrun].
  exists evs. split; [reflexivity|].
  destruct (C10_generate_when_truncated (λ l, rev l) [4000; 3000] 5 250
              false 2000 false 5000 evs) as (_ & _ & _ & Hlast & Hinc).
  - apply Permutation_sym, Permutation_rev.
  - by vm_compute.
  - exact Hrun.
  - split; [exact Hlast|]. apply Hinc.
    vm_compute in Hrun. injection Hrun as <-. simpl. lia.
Defined.

(** C10 as stated fails: one trial of two classes without baseline or rest
    returns the single zero row, whose onsets are (vacuously) increasing. *)
Lemma C10_generate_when_truncated_counterexample :
  (1 `mod` length [4000; 4000] ≠ 0)%nat ∧
  generate_when (λ l, l) [4000; 4000] 1 250 false 2000 false 5000
    = Some [zero_row] ∧
  strictly_increasing (onset_sample <$> [zero_row]).
Proof.
  split; [|split].
  - by vm_compute.
  - vm_compute. reflexivity.
  - exact I.
Qed.

(** ** The fatigue split *)

(** Truncation and rounding to nearest of the same dyadic differ by at most
    one, and truncation is the one closer to zero. *)
Lemma trunc_round_dyadic (m : positive) (e : Z) :
  0 ≤ trunc_dyadic m e ∧
  (round_dyadic m e = trunc_dyadic m e
   ∨ round_dyadic m e = trunc_dyadic m e + 1).
Proof.
  destruct e as [|p|p]; simpl.
  - lia.
  - split; [|by left]. apply Z.shiftl_nonneg. lia.
  - split; [apply Z.shiftr_nonneg; lia|].
    destruct (_ ?= _); [destruct (Z.even _)|..]; auto.
Qed.

Lemma py_int_round (x : float) (a : Z) :
  py_int x = Some a →
  ∃ r, py_round x = Some r ∧ Z.abs a ≤ Z.abs r ≤ Z.abs a + 1.
Proof.
  unfold py_int, py_round.
  destruct (Prim2SF x) as [s|s| |s m e]; try done.
  - intros [= <-]. exists 0. split; [done|lia].
  - intros [= <-]. destruct (trunc_round_dyadic m e) as [Hpos Hr].
    eexists. split; [done|]. destruct s; lia.
Qed.

(** C8, as amended.  The alert-segment length, which is also the onset of
    the fatigue event, is [int(fatigue_start * n_times)]: the product
    truncated toward zero, so the value [round] gives or the integer next to
    it on the side of zero.  The fatigue segment has the remaining
    [n_times - N_samples_alert] samples and the two lengths sum to
    [n_times]. *)
Theorem C8_fatigue_split (fatigue_start : float) (n_times alert : Z) :
  N_samples_alert fatigue_start n_times = Some alert →
  fatigue_event fatigue_start n_times = Some (Event alert 0 5) ∧
  N_samples_fatigue fatigue_start n_times = Some (n_times - alert) ∧
  alert + (n_times - alert) = n_times ∧
  ∃ r, rounded_split fatigue_start n_times = Some r ∧
       Z.abs alert ≤ Z.abs r ≤ Z.abs alert + 1.
Proof.
  intros Halert. unfold fatigue_event, N_samples_fatigue. rewrite Halert.
  repeat split; [lia|]. by apply py_int_round.
Qed.

(** C8 on a session of 1000 samples with fatigue from 60 %. *)
Lemma C8_fatigue_split_witness :
  N_samples_alert 0.6 1000 = Some 600 ∧
  N_samples_fatigue 0.6 1000 = Some (1000 - 600).
Proof.
  assert (H : N_samples_alert 0.6 1000 = Some 600) by reflexivity.
  split; [exact H|].
  exact (proj1 (proj2 (C8_fatigue_split 0.6 1000 600 H))).
Defined.

(** C8 as stated fails: with [fatigue_start = 0.75] and 5 samples the product
    is 3.75; the code splits at sample 3, rounding would split at 4. *)
Lemma C8_fatigue_split_counterexample :
  N_samples_alert 0.75 5 = Some 3 ∧
  rounded_split 0.75 5 = Some 4 ∧
  N_samples_fatigue 0.75 5 = Some 2.
Proof. repeat split; reflexivity. Qed.

(** ** The failed trials *)

Lemma nonzero_from_elem (mask : list bool) (k i : nat) :
  i ∈ nonzero_from k mask ↔ ∃ j, i = (k + j)%nat ∧ mask !! j = Some true.
Proof.
  revert k. induction mask as [|b mask IH]; intros k; simpl.
  - split; [by intros ?%elem_of_nil|by intros (j & _ & ?)].
  - rewrite elem_of_app, IH. split.
    + intros [Hi|(j & -> & Hj)].
      * destruct b; [|by apply elem_of_nil in Hi].
        apply list_elem_of_singleton in Hi as ->.
        exists 0%nat. split; [lia|done].
      * exists (S j). split; [lia|done].
    + intros ([|j] & -> & Hj); simpl in Hj.
      * injection Hj as ->. left. rewrite Nat.add_0_r. set_solver.
      * right. exists j. split; [lia|done].
Qed.

Lemma nonzero_from_NoDup (mask : list bool) (k : nat) :
  NoDup (nonzero_from k mask).
Proof.
  revert k. induction mask as [|b mask IH]; intros k; simpl.
  - constructor.
  - destruct b; simpl; [|apply IH].
    constructor; [|apply IH].
    rewrite nonzero_from_elem. intros (j & Hj & _). lia.
Qed.

Lemma n_marked_nonzero (v : list bool) (k : nat) :
  n_marked v = length (nonzero_from k v).
Proof.
  unfold n_marked. revert k. induction v as [|b v IH]; intros k; [done|].
  rewrite filter_cons. simpl. destruct b; simpl.
  - destruct (decide (true = true)); [|done]. simpl. by rewrite (IH (S k)).
  - destruct (decide (false = true)); [done|]. apply IH.
Qed.

Lemma MI_positions_elem (events : list event) (i : nat) :
  i ∈ MI_positions events ↔
  ∃ e, events !! i = Some e ∧ (class_id e = 0 ∨ class_id e = 1).
Proof.
  unfold MI_positions, nonzero. rewrite nonzero_from_elem. split.
  - intros (j & -> & Hj). simpl.
    rewrite list_lookup_fmap in Hj.
    destruct (events !! j) as [e|]; [|done]. simpl in Hj.
    exists e. split; [done|]. injection Hj as Hj.
    apply orb_true_iff in Hj as [?%Z.eqb_eq|?%Z.eqb_eq]; auto.
  - intros (e & He & Hc). exists i. split; [done|].
    rewrite list_lookup_fmap, He. simpl. f_equal.
    apply orb_true_iff. destruct Hc as [->%Z.eqb_eq| ->%Z.eqb_eq]; auto.
Qed.

Lemma where_class_elem (events : list event) (c : Z) (i : nat) :
  i ∈ where_class events c ↔ ∃ e, events !! i = Some e ∧ class_id e = c.
Proof.
  unfold where_class, nonzero. rewrite nonzero_from_elem. split.
  - intros (j & -> & Hj). simpl.
    rewrite list_lookup_fmap in Hj.
    destruct (events !! j) as [e|]; [|done]. simpl in Hj.
    exists e. split; [done|]. injection Hj as Hj. by apply Z.eqb_eq.
  - intros (e & He & Hc). exists i. split; [done|].
    rewrite list_lookup_fmap, He. simpl. f_equal. by apply Z.eqb_eq.
Qed.

Lemma set_true_spec (idx : list nat) (v v' : list bool) :
  set_true idx v = Some v' →
  length v' = length v ∧
  Forall (λ i, (i < length v)%nat) idx ∧
  ∀ i, v' !! i = Some true ↔ i ∈ idx ∨ v !! i = Some true.
Proof.
  revert v. induction idx as [|j idx IH]; intros v; simpl.
  - intros [= <-]. split; [done|]. split; [constructor|].
    intros i. split; [auto|]. by intros [?%elem_of_nil|].
  - destruct (decide (j < length v)%nat) as [Hj|]; [|done].
    intros (Hlen & Hall & Hv')%IH. rewrite length_insert in Hlen, Hall.
    split; [done|]. split; [by constructor|].
    intros i. rewrite Hv', elem_of_cons.
    destruct (decide (i = j)) as [->|Hne].
    + rewrite list_lookup_insert_eq by done. naive_solver.
    + rewrite list_lookup_insert_ne by done. naive_solver.
Qed.

Lemma rng_choice_spec (integers : nat → nat → list nat) (a : list nat)
    (size : Z) (picks : list nat) :
  rng_choice integers a size = Some picks →
  0 ≤ size ∧
  length picks = length (integers (length a) (Z.to_nat size)) ∧
  Forall (λ i, i ∈ a) picks.
Proof.
  unfold rng_choice. destruct (size <? 0) eqn:Hs; [done|].
  apply Z.ltb_ge in Hs.
  destruct (_ && _); [done|]. intros Hm%mapM_Some.
  split; [done|]. split; [symmetry; by eapply Forall2_length|].
  apply Forall_forall. intros i Hi.
  apply list_elem_of_lookup in Hi as [k Hk].
  destruct (Forall2_lookup_r _ _ _ _ _ Hm Hk) as (j & _ & Hj).
  by eapply list_elem_of_lookup_2.
Qed.

Lemma remove_dups_length_le (l : list nat) :
  (length (remove_dups l) ≤ length l)%nat.
Proof.
  induction l as [|x l IH]; simpl; [done|].
  destruct (decide_rel _ _ _); simpl; lia.
Qed.

(** C3, as amended.  The size of the draw is [int(p_failed * N_trials / 2)],
    the product truncated, and the draw is with replacement: the vector has
    one true entry for each distinct index drawn, so at most that many.
    Every marked index is a row of class id 0 or 1. *)
Theorem C3_bad_trials_vector (integers : nat → nat → list nat)
    (events : list event) (N_trials : nat) (p_failed : float)
    (v : list bool) :
  (∀ n k, length (integers n k) = k) →
  bad_trials_vector integers events N_trials p_failed = Some v →
  ∃ (size : Z) (MI_positions_failed : list nat),
    N_failed p_failed N_trials = Some size ∧
    0 ≤ size ∧
    length MI_positions_failed = Z.to_nat size ∧
    Forall (λ i, i ∈ MI_positions events) MI_positions_failed ∧
    length v = length events ∧
    (∀ i, v !! i = Some true ↔ i ∈ MI_positions_failed) ∧
    n_marked v = length (remove_dups MI_positions_failed) ∧
    (n_marked v ≤ Z.to_nat size)%nat ∧
    ∀ i, v !! i = Some true →
         ∃ e, events !! i = Some e ∧ (class_id e = 0 ∨ class_id e = 1).
Proof.
  intros Hdraw. unfold bad_trials_vector.
  destruct (N_failed p_failed N_trials) as [size|]; [|done]. simpl.
  destruct (rng_choice _ _ _) as [picks|] eqn:Hpick; [|done]. simpl.
  intros (Hlen & _ & Hv)%set_true_spec.
  apply rng_choice_spec in Hpick as (Hsize & Hpicks & Hin).
  rewrite Hdraw in Hpicks. rewrite length_replicate in Hlen.
  assert (Hmark : ∀ i, v !! i = Some true ↔ i ∈ picks).
  { intros i. rewrite Hv. split; [|auto].
    intros [|[? _]%lookup_replicate]; done. }
  assert (Hcount : n_marked v = length (remove_dups picks)).
  { rewrite (n_marked_nonzero v 0). apply Permutation_length.
    apply NoDup_Permutation;
      [apply nonzero_from_NoDup|apply NoDup_remove_dups|].
    intros i. rewrite nonzero_from_elem, elem_of_remove_dups, <- Hmark.
    simpl. naive_solver. }
  exists size, picks. repeat split; try done.
  - by apply Hmark.
  - by apply Hmark.
  - rewrite Hcount, <- Hpicks. apply remove_dups_length_le.
  - intros i Hi%Hmark. rewrite Forall_forall in Hin.
    by apply MI_positions_elem, Hin.
Qed.

(** C3 on six trials of two classes with [p_failed = 0.75]: two draws. *)
Lemma C3_bad_trials_vector_witness :
  ∃ v,
    bad_trials_vector (λ _ k, seq 0 k)
      [Event 0 0 0; Event 250 0 1; Event 500 0 0; Event 750 0 1;
       Event 1000 0 0; Event 1250 0 1] 6 0.75 = Some v ∧
    (n_marked v ≤ 2)%nat.
Proof.
  destruct (bad_trials_vector (λ _ k, seq 0 k)
              [Event 0 0 0; Event 250 0 1; Event 500 0 0; Event 750 0 1;
               Event 1000 0 0; Event 1250 0 1] 6 0.75)
    as [v|] eqn:Hrun; [|by vm_compute in Hrun].
  exists v. split; [reflexivity|].
  destruct (C3_bad_trials_vector _ _ _ _ v (λ _ k, length_seq k 0) Hrun)
    as (size & picks & Hsize & _ & _ & _ & _ & _ & _ & Hle & _).
  vm_compute in Hsize. injection Hsize as <-. exact Hle.
Defined.

(** C3 as stated fails.  With two trials and [p_failed = 0.75] the product
    is 0.75: rounding gives one failed trial, the code marks none.  With six
    trials the size is 2, and a generator that draws the same index twice
    leaves one entry marked. *)
Lemma C3_bad_trials_vector_counterexample :
  bad_trials_vector (λ _ k, seq 0 k) [Event 0 0 0; Event 250 0 1] 2 0.75
  = Some [false; false] ∧
  rounded_failed 0.75 2 = Some 1 ∧
  bad_trials_vector (λ _ k, replicate k 0%nat)
    [Event 0 0 0; Event 250 0 1; Event 500 0 0; Event 750 0 1;
     Event 1000 0 0; Event 1250 0 1] 6 0.75
  = Some [true; false; false; false; false; false] ∧
  rounded_failed 0.75 6 = Some 2.
Proof. repeat split; reflexivity. Qed.

(** ** The epochs of [generate_what_failed] *)

(** C2.  The sub-vector of the task at 0-based position [i] is read from the
    rows of class id [i + 1], not [i].  On four trials of ['MI/left'] (class
    id 0) and ['MI/right'] (class id 1) whose first event, an ['MI/left']
    trial, is the one marked, the epochs of ['MI/left'] follow the marks of
    the ['MI/right'] rows, so its first epoch is drawn from the standard
    waveform; the sub-vector of ['MI/right'] is that of class id 2, which is
    empty, and its epochs are never written. *)
Theorem C2_generate_what_failed_class_offset :
  let MI_tasks := ["MI/left"; "MI/right"] in
  let events := [Event 0 0 0; Event 2 0 1; Event 4 0 0; Event 6 0 1] in
  let erd := λ task, bool_decide (task = "MI/left") in
  let activity := λ _ : string, [1; 1; 1; 1]%float in
  let activity_wrong := λ _ : string, [2; 2; 2; 2]%float in
  ∃ v epoched,
    bad_trials_vector (λ _ k, replicate k 0%nat) events 4 0.5 = Some v ∧
    v = [true; false; false; false] ∧
    take_idx v (where_class events 0) = Some [true; false] ∧
    take_idx v (where_class events 1) = Some [false; false] ∧
    take_idx v (where_class events 2) = Some [] ∧
    generate_what_failed_label MI_tasks events v erd activity activity_wrong
      2 2 = Some epoched ∧
    epoched !! "MI/left" = Some [Some [1; 1]; Some [1; 1]]%float ∧
    epoched !! "MI/right" = Some [None; None].
Proof.
  intros MI_tasks events erd activity activity_wrong.
  exists [true; false; false; false]. eexists.
  repeat split; try reflexivity.
Qed.

(** ** The power envelope *)

Lemma np_linspace_length {R} `{Sample R} (stop : R) (num : nat) :
  length (np_linspace stop num) = num.
Proof.
  unfold np_linspace.
  assert (Hy : ∀ f : R → R, length (f <$> (of_nat <$> seq 0 num)) = num).
  { intros f. by rewrite !length_fmap, length_seq. }
  repeat case_decide; try destruct (eqb _ _);
    rewrite ?length_insert, length_fmap; apply Hy.
Qed.

Lemma np_linspace_last {R} `{Sample R} (stop : R) (num : nat) :
  (2 ≤ num)%nat → np_linspace stop num !! (num - 1)%nat = Some stop.
Proof.
  intros Hnum. unfold np_linspace.
  destruct (decide (1 < num)%nat); [|lia].
  apply list_lookup_insert_eq.
  repeat case_decide; try destruct (eqb _ _);
    rewrite !length_fmap, length_seq; lia.
Qed.

Lemma np_linspace_inner {R} `{Sample R} (stop : R) (num i : nat) :
  (i < num - 1)%nat →
  np_linspace stop num !! i
  = Some (add (if eqb (div stop (of_nat (num - 1))) (of_nat 0)
               then mul (div (of_nat i) (of_nat (num - 1))) stop
               else mul (of_nat i) (div stop (of_nat (num - 1))))
            (of_nat 0)).
Proof.
  intros Hi. unfold np_linspace.
  destruct (decide (1 < num)%nat); [|lia].
  rewrite list_lookup_insert_ne by lia.
  destruct (decide (0 < num - 1)%nat); [|lia].
  destruct (eqb _ _);
    by rewrite !list_lookup_fmap, lookup_seq_lt by lia.
Qed.

(** Zero times a finite non-zero step, plus zero, is [+0.0], and such a
    step does not compare equal to zero. *)
Lemma linspace_first (step : float) (s : bool) (m : positive) (e : Z) :
  Prim2SF step = S754_finite s m e →
  (float_of_Z (Z.of_nat 0) * step + float_of_Z (Z.of_nat 0))%float = 0%float
  ∧ (step =? float_of_Z (Z.of_nat 0))%float = false.
Proof.
  intros Hstep. split.
  - apply Prim2SF_inj.
    rewrite FloatAxioms.add_spec, FloatAxioms.mul_spec, Hstep.
    change (Prim2SF (float_of_Z (Z.of_nat 0))) with (S754_zero false).
    simpl. by destruct s.
  - rewrite FloatAxioms.eqb_spec, Hstep.
    change (Prim2SF (float_of_Z (Z.of_nat 0))) with (S754_zero false).
    simpl. by destruct s.
Qed.

(** C7, as amended, on the binary64 numbers the code computes with.  With
    [scale == 1] the guard skips the envelope and both functions return the
    filtered activity times [1e-8], whatever the dynamic.  With
    [scale != 1] and two samples or more, 'constant' multiplies every
    sample by [scale]; 'linear' multiplies sample [i] by the entry [i] of
    [np.linspace(0, scale, N_samples)]: [scale] itself at the last sample,
    [float(i) * (scale/(N_samples-1)) + 0] before it
    ([float(i)/(N_samples-1) * scale + 0] when that step is zero), which is
    [0] at sample 0 when the step is finite and not zero.  The result is
    then multiplied by [1e-8]. *)
Theorem C7_power_envelope (filtered : list float) (scale : float) :
  ((scale =? 1)%float = true →
   ∀ increase_dynamic : string,
     theta_activity filtered increase_dynamic scale
       = (λ x, 1e-8 * x)%float <$> filtered ∧
     alpha_activity filtered increase_dynamic scale
       = (λ x, 1e-8 * x)%float <$> filtered) ∧
  ((scale =? 1)%float = false → (2 ≤ length filtered)%nat →
   ∀ (i : nat) (x : float),
     filtered !! i = Some x →
     let N := length filtered in
     let step := (scale / float_of_Z (Z.of_nat (N - 1)))%float in
     theta_activity filtered "constant" scale !! i
       = Some (1e-8 * (x * scale))%float ∧
     alpha_activity filtered "constant" scale !! i
       = Some (1e-8 * (x * scale))%float ∧
     ∃ m : float,
       np_linspace scale N !! i = Some m ∧
       theta_activity filtered "linear" scale !! i
         = Some (1e-8 * (x * m))%float ∧
       alpha_activity filtered "linear" scale !! i
         = Some (1e-8 * (x * m))%float ∧
       (i = (N - 1)%nat → m = scale) ∧
       ((i < N - 1)%nat →
        m = ((if (step =? 0)%float
              then float_of_Z (Z.of_nat i) / float_of_Z (Z.of_nat (N - 1))
                   * scale
              else float_of_Z (Z.of_nat i) * step) + 0)%float) ∧
       (i = 0%nat → (∃ s mant e, Prim2SF step = S754_finite s mant e) →
        m = 0%float)).
Proof.
  split.
  - intros Hone increase_dynamic.
    assert (Hguard : eqb scale (of_nat 1) = true) by exact Hone.
    unfold theta_activity, alpha_activity. by rewrite Hguard.
  - intros Hscale HN i x Hx N step.
    assert (Hguard : eqb scale (of_nat 1) = false) by exact Hscale.
    assert (Hi : (i < N)%nat) by by eapply lookup_lt_Some.
    assert (Hm : ∃ m, np_linspace scale N !! i = Some m).
    { apply lookup_lt_is_Some. by rewrite np_linspace_length. }
    destruct Hm as [m Hm].
    unfold theta_activity, alpha_activity. rewrite Hguard. simpl.
    rewrite !list_lookup_fmap, !lookup_zip_with, Hx. fold N. rewrite Hm.
    simpl. split; [done|]. split; [done|].
    exists m. split; [done|]. split; [done|]. split; [done|].
    split; [|split].
    + intros ->. rewrite np_linspace_last in Hm by done. by injection Hm.
    + intros Hlt. rewrite np_linspace_inner in Hm by done.
      by injection Hm as <-.
    + intros -> (s & mant & e & Hstep).
      rewrite np_linspace_inner in Hm by lia. injection Hm as <-.
      destruct (linspace_first step s mant e Hstep) as [Hzero Hne].
      change ((if (step =? float_of_Z (Z.of_nat 0))%float
               then float_of_Z (Z.of_nat 0) / float_of_Z (Z.of_nat (N - 1))
                    * scale
               else float_of_Z (Z.of_nat 0) * step)
              + float_of_Z (Z.of_nat 0) = 0)%float.
      rewrite Hne. exact Hzero.
Qed.

(** C7 on three samples with [scale = 2]: the first sample is scaled by 0,
    the last by 2. *)
Lemma C7_power_envelope_witness :
  theta_activity [1; 1; 1]%float "constant" 2%float !! 0%nat
    = Some (1e-8 * (1 * 2))%float ∧
  theta_activity [1; 1; 1]%float "linear" 2%float !! 0%nat
    = Some (1e-8 * (1 * 0))%float ∧
  theta_activity [1; 1; 1]%float "linear" 2%float !! 2%nat
    = Some (1e-8 * (1 * 2))%float.
Proof.
  destruct (proj2 (C7_power_envelope [1; 1; 1]%float 2%float) eq_refl
              ltac:(simpl; lia) 0%nat 1%float eq_refl)
    as (Hconst & _ & m0 & _ & Hfirst & _ & _ & _ & Hzero).
  destruct (proj2 (C7_power_envelope [1; 1; 1]%float 2%float) eq_refl
              ltac:(simpl; lia) 2%nat 1%float eq_refl)
    as (_ & _ & m2 & _ & Hlast & _ & Hend & _ & _).
  split; [exact Hconst|]. split.
  - rewrite Hfirst, (Hzero eq_refl); [reflexivity|].
    vm_compute. eauto.
  - by rewrite Hlast, (Hend eq_refl).
Defined.

(** C7 as stated fails.  At [scale = 1] the guard [scale != 1] skips the
    envelope, so the 'linear' dynamic leaves sample 0 as it is instead of
    scaling it by 0.  At [scale = 45] over eight samples the factor of
    sample 1 is 6.4285714285714288, not the 6.4285714285714279 that
    [1/7 * 45] evaluates to.  At an infinite scale sample 0 is a NaN. *)
Lemma C7_power_envelope_counterexample :
  theta_activity [1; 1; 1]%float "linear" 1%float
    = [1e-8; 1e-8; 1e-8]%float ∧
  alpha_activity [1; 1; 1]%float "linear" 1%float
    = [1e-8; 1e-8; 1e-8]%float ∧
  (1e-8 * (1 * linear_envelope 1 3 0))%float = 0%float ∧
  theta_activity (replicate 8 1%float) "linear" 45%float !! 1%nat
    = Some 6.428571428571429e-08%float ∧
  (1e-8 * (1 * linear_envelope 45 8 1))%float = 6.4285714285714277e-08%float ∧
  (6.428571428571429e-08 =? 6.4285714285714277e-08)%float = false ∧
  theta_activity [1; 1]%float "linear" infinity = [nan; infinity].
Proof. repeat split; reflexivity. Qed.


(** ** Further properties of [set_peak_amplitudes] *)

Lemma setitem_None (params : gmap string (gmap string nat))
    (h : list (list float)) (label task : string) (i : nat) (x : float) :
  peak_of h params label task = None →
  setitem params label task i x h = None.
Proof.
  unfold peak_of, setitem, store. intros Hv.
  destruct (params !! label) as [row|]; [|done]. simpl in Hv.
  destruct (row !! task) as [l|]; [|done]. simpl in Hv.
  by rewrite Hv.
Qed.

Lemma setitem_keeps_None (params : gmap string (gmap string nat))
    (h h1 : list (list float)) (label task : string) (i : nat) (x : float)
    (lb tk : string) :
  setitem params label task i x h = Some (tt, h1) →
  peak_of h params lb tk = None →
  peak_of h1 params lb tk = None.
Proof.
  unfold setitem, store. intros Hrun Hv.
  destruct (params !! label) as [row|]; [|done].
  destruct (row !! task) as [l|]; [|done].
  destruct (h !! l) as [v|] eqn:Hl; [|done].
  case_decide; [|done]. injection Hrun as <-.
  unfold peak_of in *.
  destruct (params !! lb) as [row'|]; [|done]. simpl in *.
  destruct (row' !! tk) as [l'|]; [|done]. simpl in *.
  destruct (decide (l' = l)) as [->|Hne]; [congruence|].
  by rewrite list_lookup_insert_ne.
Qed.

Lemma store_pair_None (params : gmap string (gmap string nat))
    (h : list (list float)) (task la lb : string) (xa xb : float) :
  peak_of h params la task = None ∨ peak_of h params lb task = None →
  (let* _ := setitem params la task 1 xa in
   setitem params lb task 1 xb) h = None.
Proof.
  intros Hmiss. unfold bind.
  destruct (setitem params la task 1 xa h) as [[[] h1]|] eqn:Hrun; [|done].
  destruct Hmiss as [Ha|Hb].
  - by rewrite (setitem_None _ _ _ _ _ _ Ha) in Hrun.
  - apply setitem_None. by eapply setitem_keeps_None.
Qed.

(** X1. On a base table of triples that lacks one of the two precentral
    labels, when one of the tasks ['MI/left'], ['MI/right'], ['rest'] is
    requested, [set_peak_amplitudes] does not return.  The copy loops of
    lines 68-71 complete; the table they build has an entry for a label
    exactly when the base table has one, so none for the missing label; and
    an assignment [params[label][task][1] = x] to a label that is present
    and a requested task succeeds in every store the assignments can
    reach.  The exception is therefore the [KeyError] of the first
    assignment to the missing label. *)
Theorem set_peak_amplitudes_missing_label (MI_tasks : list string)
    (user_peak_params : gmap string nat) (reduction : float)
    (h : list (list float)) :
  peak_table_wf h user_peak_params →
  user_peak_params !! "G_precentral-lh" = None
  ∨ user_peak_params !! "G_precentral-rh" = None →
  "MI/left" ∈ MI_tasks ∨ "MI/right" ∈ MI_tasks ∨ "rest" ∈ MI_tasks →
  set_peak_amplitudes MI_tasks user_peak_params reduction h = None ∧
  ∃ params h1,
    copy_labels (map_to_list user_peak_params) MI_tasks ∅ h
      = Some (params, h1) ∧
    (∀ label, params !! label = None ↔ user_peak_params !! label = None) ∧
    ∀ (h2 : list (list float)) (label task : string) (x : float),
      (∀ l v, h1 !! l = Some v →
              ∃ v', h2 !! l = Some v' ∧ length v' = length v) →
      is_Some (params !! label) → task ∈ MI_tasks →
      ∃ h3,
        setitem params label task 1 x h2 = Some (tt, h3) ∧
        (∀ l v, h1 !! l = Some v →
                ∃ v', h3 !! l = Some v' ∧ length v' = length v).
Proof.
  intros Hwf Hmiss Htask.
  assert (Hlive : ∀ label src, user_peak_params !! label = Some src →
            is_Some (h !! src)).
  { intros label src Hl.
    destruct (peak_table_wf_lookup _ _ _ _ Hwf Hl) as (v & -> & _). eauto. }
  destruct (copy_labels_spec MI_tasks (map_to_list user_peak_params) ∅ h)
    as (params & ext & Hrun & Hother & Hrows & _).
  { apply NoDup_fst_map_to_list. }
  { intros label src Hin. apply elem_of_map_to_list in Hin. eauto. }
  assert (Hdom : ∀ label,
            params !! label = None ↔ user_peak_params !! label = None).
  { intros label. split.
    - intros Hp. destruct (user_peak_params !! label) as [src|] eqn:Hl;
        [|done].
      destruct (Hrows label src) as (row & Hrow & _);
        [by apply elem_of_map_to_list|]. congruence.
    - intros Hl. rewrite Hother; [apply lookup_empty|].
      intros Hin. apply list_elem_of_fmap in Hin as [[lb src] [-> Hin]].
      apply elem_of_map_to_list in Hin. simpl in *. congruence. }
  split.
  - assert (Hnone : ∀ task,
              peak_of (h ++ ext) params "G_precentral-lh" task = None
              ∨ peak_of (h ++ ext) params "G_precentral-rh" task = None).
    { intros task. unfold peak_of.
      destruct Hmiss as [Hm|Hm]; apply Hdom in Hm; rewrite Hm; auto. }
    unfold set_peak_amplitudes. unfold bind at 1. rewrite Hrun.
    unfold py_in.
    destruct (decide ("MI/left" ∈ MI_tasks)) as [Hl|Hl].
    { rewrite (bool_decide_eq_true_2 _ Hl). unfold bind at 1.
      rewrite store_pair_None; [done|]. apply Hnone. }
    rewrite (bool_decide_eq_false_2 _ Hl). unfold bind at 1. simpl.
    destruct (decide ("MI/right" ∈ MI_tasks)) as [Hr|Hr].
    { rewrite (bool_decide_eq_true_2 _ Hr). unfold bind at 1.
      rewrite store_pair_None; [done|].
      destruct (Hnone "MI/right"); auto. }
    rewrite (bool_decide_eq_false_2 _ Hr). unfold bind at 1. simpl.
    destruct (decide ("rest" ∈ MI_tasks)) as [Hs|Hs].
    { rewrite (bool_decide_eq_true_2 _ Hs). unfold bind at 1.
      rewrite store_pair_None; [done|].
      destruct (Hnone "rest"); auto. }
    naive_solver.
  - exists params, (h ++ ext). split; [done|]. split; [done|].
    intros h2 label task x Hshape [row Hrow] Ht.
    destruct (user_peak_params !! label) as [src|] eqn:Hl;
      [|apply Hdom in Hl; congruence].
    destruct (Hrows label src) as (row' & Hrow' & Htasks & Hrange & _);
      [by apply elem_of_map_to_list|].
    assert (row' = row) as -> by congruence.
    apply Htasks in Ht as [l Hloc].
    destruct (Hrange task l Hloc) as [_ Hcopy].
    destruct (peak_table_wf_lookup _ _ _ _ Hwf Hl) as (v & Hv & Hlen).
    rewrite Hv in Hcopy.
    destruct (Hshape l v Hcopy) as (v' & Hv' & Hlen').
    exists (<[l := <[1%nat := x]> v']> h2). split.
    + unfold setitem, store. rewrite Hrow, Hloc, Hv'.
      rewrite decide_True by lia. done.
    + intros l0 v0 H0. destruct (Hshape l0 v0 H0) as (v0' & Hv0' & Hlen0).
      destruct (decide (l0 = l)) as [->|Hne].
      * exists (<[1%nat := x]> v').
        rewrite list_lookup_insert_eq by by eapply lookup_lt_Some.
        split; [done|]. rewrite length_insert. congruence.
      * exists v0'. by rewrite list_lookup_insert_ne.
Qed.

(** The rule on a table with the left label only. *)
Lemma set_peak_amplitudes_missing_label_witness :
  set_peak_amplitudes ["MI/left"; "MI/right"]
    {[ "G_precentral-lh" := 0%nat ]} 0.5%float [[10; 0.3; 2]]%float = None.
Proof.
  refine (proj1 (set_peak_amplitudes_missing_label ["MI/left"; "MI/right"]
                   {[ "G_precentral-lh" := 0%nat ]} 0.5%float
                   [[10; 0.3; 2]]%float _ _ _)).
  - compute_done.
  - right. reflexivity.
  - left. compute_done.
Defined.

(** X2. What [set_peak_amplitudes] leaves alone.  The returned table has an
    entry exactly for each label of the base table and each requested task;
    each entry is a triple whose centre frequency and bandwidth are the base
    table's; and the whole entry equals the base row for a label other than
    the two precentral ones and for a task other than ['MI/left'],
    ['MI/right'] and ['rest']. *)
Theorem set_peak_amplitudes_untouched (MI_tasks : list string)
    (user_peak_params : gmap string nat) (reduction : float)
    (h : list (list float)) :
  peak_table_wf h user_peak_params →
  is_Some (user_peak_params !! "G_precentral-lh") →
  is_Some (user_peak_params !! "G_precentral-rh") →
  ∃ params h',
    set_peak_amplitudes MI_tasks user_peak_params reduction h
      = Some (params, h') ∧
    (∀ label task,
       is_Some (peak_of h' params label task)
       ↔ is_Some (user_peak_params !! label) ∧ task ∈ MI_tasks) ∧
    (∀ label task v v',
       base_of h user_peak_params label = Some v →
       peak_of h' params label task = Some v' →
       length v' = 3%nat ∧
       v' !! 0%nat = v !! 0%nat ∧ v' !! 2%nat = v !! 2%nat ∧
       (label ≠ "G_precentral-lh" ∧ label ≠ "G_precentral-rh"
        ∨ task ≠ "MI/left" ∧ task ≠ "MI/right" ∧ task ≠ "rest" →
        v' = v)).
Proof.
  intros Hwf Hl Hr.
  destruct (set_peak_amplitudes_spec MI_tasks user_peak_params reduction h)
    as (params & h' & Hrun & _ & _ & _ & Hview); try done.
  exists params, h'. split; [done|]. split.
  - intros label task. rewrite Hview. unfold resolved, py_in, base_of.
    case_bool_decide as Ht; [|split; [intros []%is_Some_None|tauto]].
    destruct (user_peak_params !! label) as [src|] eqn:Hsrc; simpl.
    + destruct (peak_table_wf_lookup _ _ _ _ Hwf Hsrc) as (v & -> & _).
      simpl. split; eauto.
    + split; [intros []%is_Some_None|by intros [[]%is_Some_None _]].
  - intros label task v v' Hv. rewrite Hview. unfold resolved.
    destruct (py_in task MI_tasks); [|done]. rewrite Hv. simpl.
    assert (Hlen : length v = 3%nat).
    { unfold base_of in Hv.
      destruct (user_peak_params !! label) as [src|] eqn:Hsrc; [|done].
      destruct (peak_table_wf_lookup _ _ _ _ Hwf Hsrc) as (w & Hw & ?).
      simpl in Hv. congruence. }
    intros [= <-]. unfold erd_level.
    repeat case_decide; simplify_eq;
      rewrite ?length_insert, ?list_lookup_insert_ne by done;
      (split; [done|split; [done|split; [done|]]]); naive_solver.
Qed.

(** The frame on a table with a third label. *)
Lemma set_peak_amplitudes_untouched_witness :
  ∃ params h',
    set_peak_amplitudes ["MI/left"; "MI/right"]
      {[ "G_precentral-lh" := 0%nat; "G_precentral-rh" := 1%nat;
         "G_postcentral-lh" := 2%nat ]} 0.5%float
      [[10; 0.3; 2]; [11; 0.35; 2.5]; [9; 0.1; 1]]%float = Some (params, h') ∧
    peak_of h' params "G_postcentral-lh" "MI/left" = Some [9; 0.1; 1]%float.
Proof.
  destruct (set_peak_amplitudes_untouched ["MI/left"; "MI/right"]
              {[ "G_precentral-lh" := 0%nat; "G_precentral-rh" := 1%nat;
                 "G_postcentral-lh" := 2%nat ]} 0.5%float
              [[10; 0.3; 2]; [11; 0.35; 2.5]; [9; 0.1; 1]]%float)
    as (params & h' & Hrun & Hdom & Hrows).
  - compute_done.
  - vm_compute. eauto.
  - vm_compute. eauto.
  - exists params, h'. split; [exact Hrun|].
    destruct (proj2 (Hdom "G_postcentral-lh" "MI/left")) as [v' Hv'].
    { split; [vm_compute; eauto|compute_done]. }
    rewrite Hv'. f_equal.
    refine (proj2 (proj2 (proj2
              (Hrows "G_postcentral-lh" "MI/left" [9; 0.1; 1]%float v'
                 _ Hv'))) _).
    + reflexivity.
    + left. split; discriminate.
Defined.

(** ** Further properties of [generate_when] *)

Lemma emit_ok (pre : list event) (m : nat) (t class d : Z) :
  int32_ok t = true → int32_ok class = true →
  emit (WhenState (pre ++ replicate (S m) zero_row) (length pre) t)
    class (Some d)
  = Some (WhenState ((pre ++ [Event t 0 class]) ++ replicate m zero_row)
            (length (pre ++ [Event t 0 class])) (t + d)).
Proof.
  intros Ht Hc. unfold emit, set_onset, set_class. simpl.
  rewrite lookup_app_r by lia. rewrite Nat.sub_diag. simpl.
  rewrite Ht. simpl.
  rewrite insert_app_r_alt by lia. rewrite Nat.sub_diag. simpl.
  rewrite lookup_app_r by lia. rewrite Nat.sub_diag. simpl.
  rewrite Hc. simpl.
  rewrite insert_app_r_alt by lia. rewrite Nat.sub_diag. simpl.
  rewrite <- app_assoc. simpl. rewrite length_app. simpl.
  do 2 f_equal. lia.
Qed.

Lemma int32_ok_range (z : Z) : 0 ≤ z < 2 ^ 31 → int32_ok z = true.
Proof. unfold int32_ok. lia. Qed.

Lemma span_nonneg (segs : list (Z * Z)) :
  Forall (λ seg, 0 ≤ snd seg) segs → 0 ≤ span segs.
Proof.
  induction 1 as [|seg segs Hseg _ IH]; simpl; [done|].
  unfold span in *. simpl. lia.
Qed.

Lemma span_app (segs1 segs2 : list (Z * Z)) :
  span (segs1 ++ segs2) = span segs1 + span segs2.
Proof.
  unfold span. induction segs1 as [|seg segs1 IH]; simpl; lia.
Qed.

Lemma trial_segments_nonneg (events_info : list Z) (sfreq : Z)
    (include_rest : bool) (rest_duration : Z) (trials_ID : list nat) :
  Forall (λ duration, 0 ≤ samples duration sfreq) events_info →
  (include_rest = true → 0 ≤ samples rest_duration sfreq) →
  Forall (λ i, i < length events_info)%nat trials_ID →
  Forall (λ seg, 0 ≤ snd seg)
    (trial_segments events_info sfreq include_rest rest_duration trials_ID).
Proof.
  intros Hinfo Hrest Hids. unfold trial_segments.
  induction Hids as [|id trials_ID Hid Hids IH]; simpl; [done|].
  apply Forall_cons. split.
  - simpl. apply lookup_lt_is_Some in Hid as [d Hd]. rewrite Hd. simpl.
    rewrite Forall_lookup in Hinfo. by apply (Hinfo id).
  - apply Forall_app. split; [|done].
    destruct include_rest; [|done]. apply Forall_singleton. auto.
Qed.

Lemma trial_loop_ok (events_info : list Z) (sfreq : Z)
    (include_rest : bool) (rest_duration : Z) (trials_ID : list nat) :
  Forall (λ duration, is_Some (duration_samples duration sfreq)
                      ∧ 0 ≤ samples duration sfreq) events_info →
  (include_rest = true →
   is_Some (duration_samples rest_duration sfreq)
   ∧ 0 ≤ samples rest_duration sfreq) →
  Z.of_nat (length events_info) + 1 < 2 ^ 31 →
  Forall (λ i, i < length events_info)%nat trials_ID →
  ∀ (pre : list event) (m : nat) (t : Z),
    (length (trial_segments events_info sfreq include_rest rest_duration
               trials_ID) ≤ m)%nat →
    0 ≤ t →
    t + span (trial_segments events_info sfreq include_rest rest_duration
                trials_ID) < 2 ^ 31 →
    is_Some (trial_loop events_info sfreq include_rest rest_duration
               trials_ID
               (WhenState (pre ++ replicate m zero_row) (length pre) t)).
Proof.
  intros Hinfo Hrest Hcls Hids.
  assert (Hinfo0 : Forall (λ duration, 0 ≤ samples duration sfreq)
                     events_info).
  { eapply Forall_impl; [exact Hinfo|]. by intros d [_ ?]. }
  assert (Hrest0 : include_rest = true → 0 ≤ samples rest_duration sfreq).
  { intros Hr. by apply Hrest. }
  induction Hids as [|id trials_ID Hid Hids IH]; intros pre m t Hm Ht Hspan.
  - simpl. eauto.
  - pose proof (span_nonneg _ (trial_segments_nonneg events_info sfreq
                  include_rest rest_duration trials_ID Hinfo0 Hrest0 Hids))
      as Htail.
    simpl. unfold trial_step.
    apply lookup_lt_is_Some in Hid as Hd. destruct Hd as [d Hd].
    rewrite Hd. simpl.
    rewrite Forall_lookup in Hinfo.
    destruct (Hinfo id d Hd) as [[n Hn] Hn0].
    unfold samples in Hn0. rewrite Hn in Hn0. simpl in Hn0.
    unfold trial_segments in Hm, Hspan. simpl in Hm, Hspan.
    fold (trial_segments events_info sfreq include_rest rest_duration
            trials_ID) in Hm, Hspan.
    rewrite Hd in Hspan. simpl in Hspan.
    unfold samples in Hspan at 1. rewrite Hn in Hspan. simpl in Hspan.
    rewrite length_app in Hm.
    change (span ((Z.of_nat id, n) :: ?l)) with (n + span l) in Hspan.
    rewrite span_app in Hspan.
    assert (Hid32 : Z.of_nat id < 2 ^ 31) by lia.
    destruct include_rest.
    + destruct Hrest as [[nr Hnr] Hnr0]; [done|].
      unfold samples in Hnr0, Hspan. rewrite Hnr in Hnr0, Hspan.
      simpl in Hnr0, Hspan.
      change (span [(?c, nr)]) with (nr + 0) in Hspan.
      simpl in Hm. destruct m as [|[|m2]]; [lia|lia|].
      rewrite Hn, emit_ok by (apply int32_ok_range; lia).
      cbn [mbind option_bind].
      rewrite Hnr, emit_ok by (apply int32_ok_range; lia).
      cbn [mbind option_bind].
      apply IH; [lia|lia|lia].
    + change (span []) with 0 in Hspan. simpl in Hm.
      destruct m as [|m1]; [lia|].
      rewrite Hn, emit_ok by (apply int32_ok_range; lia).
      cbn [mbind option_bind].
      apply IH; [lia|lia|lia].
Qed.

Lemma balanced_trials_ID_pos (N_classes N_trials : nat) :
  (0 < N_classes)%nat →
  balanced_trials_ID N_classes N_trials
  = Some (repmat_arange N_classes (N_trials / N_classes)).
Proof. intros Hpos. unfold balanced_trials_ID. by destruct N_classes; [lia|]. Qed.

(** X3. [generate_when] returns an array whenever there is at least one
    class, every duration in use rounds to a finite non-negative number of
    samples, and the class ids and the length of the session in samples fit
    the [int32] cells of the array. *)
Theorem generate_when_returns (permutation : list nat → list nat)
    (events_info : list Z) (N_trials : nat) (sfreq : Z)
    (include_rest : bool) (rest_duration : Z)
    (include_baseline : bool) (baseline_duration : Z) :
  (0 < length events_info)%nat →
  permutation (repmat_arange (length events_info)
                 (N_trials / length events_info))
    ≡ₚ repmat_arange (length events_info) (N_trials / length events_info) →
  Forall (λ duration, is_Some (duration_samples duration sfreq)
                      ∧ 0 ≤ samples duration sfreq) events_info →
  (include_rest = true →
   is_Some (duration_samples rest_duration sfreq)
   ∧ 0 ≤ samples rest_duration sfreq) →
  (include_baseline = true →
   is_Some (duration_samples baseline_duration sfreq)
   ∧ 0 ≤ samples baseline_duration sfreq) →
  Z.of_nat (length events_info) + 1 < 2 ^ 31 →
  span (segments events_info sfreq include_rest rest_duration
          include_baseline baseline_duration
          (permutation (repmat_arange (length events_info)
                          (N_trials / length events_info)))) < 2 ^ 31 →
  is_Some (generate_when permutation events_info N_trials sfreq include_rest
             rest_duration include_baseline baseline_duration).
Proof.
  intros Hpos Hperm Hinfo Hrest Hbase Hcls Hspan.
  unfold generate_when. rewrite balanced_trials_ID_pos by done.
  cbn [mbind option_bind].
  set (trials := permutation _) in *.
  assert (Hids : Forall (λ i, i < length events_info)%nat trials).
  { apply Forall_forall. intros i Hi. subst trials.
    rewrite Hperm in Hi. by apply repmat_arange_elem in Hi. }
  assert (Hlen : (length trials ≤ N_trials)%nat).
  { rewrite (Permutation_length Hperm), repmat_arange_length.
    pose proof (Nat.div_mod_eq N_trials (length events_info)). lia. }
  pose proof (trial_segments_length events_info sfreq include_rest
                rest_duration trials) as Hsegs.
  unfold segments in Hspan. rewrite span_app in Hspan.
  unfold np_zeros, n_rows.
  destruct include_baseline.
  - destruct Hbase as [[nb Hnb] Hnb0]; [done|].
    unfold samples in Hnb0, Hspan. rewrite Hnb in Hnb0, Hspan.
    simpl in Hnb0. change (span [(?c, ?x)]) with (x + 0) in Hspan.
    simpl in Hspan.
    assert (Hrows : ∃ m, (if include_rest then 2 * N_trials + 1
                          else N_trials + 1)%nat = S m ∧
              (length (trial_segments events_info sfreq include_rest
                         rest_duration trials) ≤ m)%nat).
    { destruct include_rest; eexists; (split; [by rewrite Nat.add_1_r|]);
        lia. }
    destruct Hrows as (m & -> & Hm).
    rewrite Hnb. rewrite (emit_ok [] m) by (apply int32_ok_range; lia).
    cbn [mbind option_bind].
    destruct (trial_loop_ok events_info sfreq include_rest rest_duration
                trials Hinfo Hrest Hcls Hids [Event 0 0 (Z.of_nat (length events_info))] m
                (0 + nb)) as [st Hst]; [lia|lia|lia|].
    simpl in Hst |- *. rewrite Hst. simpl. eauto.
  - change (span []) with 0 in Hspan. cbn [mbind option_bind].
    destruct (trial_loop_ok events_info sfreq include_rest rest_duration
                trials Hinfo Hrest Hcls Hids []
                (if include_rest then 2 * N_trials else N_trials)%nat
                0) as [st Hst]; [destruct include_rest; lia|lia|lia|].
    destruct include_rest; simpl in Hst |- *; rewrite Hst; simpl; eauto.
Qed.

(** [generate_when] returns on 40 trials of two classes with rest and
    baseline at 250 Hz. *)
Lemma generate_when_returns_witness :
  is_Some (generate_when (λ l, rev l) [4000; 3000] 40 250 true 2000 true
             5000).
Proof.
  apply generate_when_returns.
  - simpl. lia.
  - apply Permutation_sym, Permutation_rev.
  - repeat apply Forall_cons_2;
      [vm_compute; split; [eauto|discriminate]..|apply Forall_nil_2].
  - intros _. vm_compute. split; [eauto|discriminate].
  - intros _. vm_compute. split; [eauto|discriminate].
  - by vm_compute.
  - by vm_compute.
Defined.

Lemma timeline_elem (segs : list (Z * Z)) :
  ∀ (t : Z) (e : event),
    e ∈ timeline t segs →
    reserved e = 0 ∧ ∃ seg, seg ∈ segs ∧ class_id e = fst seg.
Proof.
  induction segs as [|[c d] segs IH]; intros t e He; simpl in He.
  - by apply elem_of_nil in He.
  - apply elem_of_cons in He as [->|He].
    + split; [done|]. exists (c, d). split; [left|done].
    + destruct (IH _ _ He) as (? & seg & ? & ?). split; [done|].
      exists seg. split; [by right|done].
Qed.

Lemma segments_class (events_info : list Z) (sfreq : Z)
    (include_rest : bool) (rest_duration : Z)
    (include_baseline : bool) (baseline_duration : Z)
    (trials_ID : list nat) (seg : Z * Z) :
  Forall (λ i, i < length events_info)%nat trials_ID →
  seg ∈ segments events_info sfreq include_rest rest_duration
          include_baseline baseline_duration trials_ID →
  0 ≤ fst seg < Z.of_nat (length events_info)
  ∨ (include_baseline = true ∧ fst seg = Z.of_nat (length events_info))
  ∨ (include_rest = true ∧ fst seg = Z.of_nat (length events_info) + 1).
Proof.
  intros Hids. unfold segments, trial_segments.
  rewrite elem_of_app. intros [Hb|Ht].
  - destruct include_baseline; [|by apply elem_of_nil in Hb].
    apply list_elem_of_singleton in Hb as ->. auto.
  - apply list_elem_of_In, in_flat_map in Ht as (id & Hid & Hseg).
    apply list_elem_of_In in Hid, Hseg.
    rewrite Forall_forall in Hids. specialize (Hids _ Hid).
    apply elem_of_cons in Hseg as [->|Hseg]; [left; simpl; lia|].
    destruct include_rest; [|by apply elem_of_nil in Hseg].
    apply list_elem_of_singleton in Hseg as ->. auto.
Qed.

Lemma trial_segments_count_high (events_info : list Z) (sfreq : Z)
    (include_rest : bool) (rest_duration : Z) (trials_ID : list nat)
    (c : Z) :
  Forall (λ i, i < length events_info)%nat trials_ID →
  Z.of_nat (length events_info) ≤ c →
  length (filter (λ seg, fst seg = c)
            (trial_segments events_info sfreq include_rest rest_duration
               trials_ID))
  = if include_rest && (c =? Z.of_nat (length events_info) + 1)
    then length trials_ID else 0%nat.
Proof.
  intros Hids Hc. unfold trial_segments.
  induction Hids as [|id trials_ID Hid Hids IH]; simpl.
  - by destruct (_ && _).
  - rewrite filter_cons. simpl.
    destruct (decide (Z.of_nat id = c)); [lia|].
    rewrite filter_app, length_app, IH.
    destruct include_rest; simpl; [|done].
    rewrite filter_cons. simpl.
    destruct (decide (Z.of_nat (length events_info) + 1 = c)) as [<-|Hne].
    + by rewrite Z.eqb_refl.
    + apply Z.eqb_neq in Hne. rewrite Z.eqb_sym, Hne. done.
Qed.

Lemma rows_of_class_zero_rows (c : Z) (pad : nat) :
  c ≠ 0 → rows_of_class c (replicate pad zero_row) = [].
Proof.
  intros Hc. unfold rows_of_class.
  induction pad as [|pad IH]; simpl; [done|].
  rewrite filter_cons. simpl. by destruct (decide (0 = c)).
Qed.

Lemma generate_when_classes (permutation : list nat → list nat)
    (events_info : list Z) (N_trials : nat) (sfreq : Z)
    (include_rest : bool) (rest_duration : Z)
    (include_baseline : bool) (baseline_duration : Z) (evs : list event) :
  permutation (repmat_arange (length events_info)
                 (N_trials / length events_info))
    ≡ₚ repmat_arange (length events_info) (N_trials / length events_info) →
  generate_when permutation events_info N_trials sfreq include_rest
    rest_duration include_baseline baseline_duration = Some evs →
  Forall (λ e, reserved e = 0
               ∧ 0 ≤ class_id e ≤ Z.of_nat (length events_info) + 1) evs.
Proof.
  intros Hperm Hrun.
  apply generate_when_spec in Hrun as (pad & Hpos & _ & ->).
  apply Forall_forall. intros e [He|He]%elem_of_app.
  - apply timeline_elem in He as (Hres & seg & Hseg & ->).
    split; [done|].
    apply segments_class in Hseg; [lia|].
    apply Forall_forall. intros i Hi.
    rewrite Hperm in Hi. by apply repmat_arange_elem in Hi.
  - apply elem_of_replicate in He as [-> _]. simpl. lia.
Qed.

Lemma generate_when_high_rows (permutation : list nat → list nat)
    (events_info : list Z) (N_trials : nat) (sfreq : Z)
    (include_rest : bool) (rest_duration : Z)
    (include_baseline : bool) (baseline_duration : Z) (evs : list event)
    (c : Z) :
  permutation (repmat_arange (length events_info)
                 (N_trials / length events_info))
    ≡ₚ repmat_arange (length events_info) (N_trials / length events_info) →
  generate_when permutation events_info N_trials sfreq include_rest
    rest_duration include_baseline baseline_duration = Some evs →
  Z.of_nat (length events_info) ≤ c →
  length (rows_of_class c evs)
  = ((if include_baseline && (c =? Z.of_nat (length events_info))%Z
      then 1 else 0)
     + (if include_rest && (c =? Z.of_nat (length events_info) + 1)%Z
        then length events_info * (N_trials / length events_info)
        else 0))%nat.
Proof.
  intros Hperm Hrun Hc.
  apply generate_when_spec in Hrun as (pad & Hpos & _ & ->).
  set (trials := permutation _) in *.
  assert (Hids : Forall (λ i, i < length events_info)%nat trials).
  { apply Forall_forall. intros i Hi. subst trials.
    rewrite Hperm in Hi. by apply repmat_arange_elem in Hi. }
  assert (Hlen : length trials
                 = (length events_info * (N_trials / length events_info))%nat).
  { by rewrite (Permutation_length Hperm), repmat_arange_length. }
  unfold rows_of_class. rewrite filter_app, length_app.
  fold (rows_of_class c (timeline 0
          (segments events_info sfreq include_rest rest_duration
             include_baseline baseline_duration trials))).
  fold (rows_of_class c (replicate pad zero_row)).
  rewrite rows_of_class_zero_rows by lia.
  rewrite rows_of_class_timeline. unfold segments.
  rewrite filter_app, length_app, trial_segments_count_high by done.
  rewrite Hlen. simpl. rewrite Nat.add_0_r. f_equal.
  destruct include_baseline; [|done]. rewrite filter_cons. simpl.
  destruct (decide (Z.of_nat (length events_info) = c)) as [<-|Hne].
  - by rewrite Z.eqb_refl.
  - apply Z.eqb_neq in Hne. by rewrite Z.eqb_sym, Hne.
Qed.

(** X4. The layout of the array [generate_when] returns.  The middle column
    is 0 in every row and every class id lies in [0 .. N_classes + 1]; the
    first row has onset 0; class id [N_classes] labels one row, the first,
    when [include_baseline] is set and none otherwise; class id
    [N_classes + 1] labels one row per trial written when [include_rest] is
    set and none otherwise. *)
Theorem generate_when_layout (permutation : list nat → list nat)
    (events_info : list Z) (N_trials : nat) (sfreq : Z)
    (include_rest : bool) (rest_duration : Z)
    (include_baseline : bool) (baseline_duration : Z) (evs : list event) :
  permutation (repmat_arange (length events_info)
                 (N_trials / length events_info))
    ≡ₚ repmat_arange (length events_info) (N_trials / length events_info) →
  generate_when permutation events_info N_trials sfreq include_rest
    rest_duration include_baseline baseline_duration = Some evs →
  let N_classes := Z.of_nat (length events_info) in
  (∀ e, e ∈ evs → reserved e = 0 ∧ 0 ≤ class_id e ≤ N_classes + 1) ∧
  (∀ e, evs !! 0%nat = Some e → onset_sample e = 0) ∧
  (include_baseline = true → evs !! 0%nat = Some (Event 0 0 N_classes)) ∧
  length (rows_of_class N_classes evs)
    = (if include_baseline then 1 else 0)%nat ∧
  length (rows_of_class (N_classes + 1) evs)
    = (if include_rest
       then length events_info * (N_trials / length events_info)
       else 0)%nat.
Proof.
  intros Hperm Hrun N_classes.
  pose proof (generate_when_classes _ _ _ _ _ _ _ _ _ Hperm Hrun) as Hcls.
  pose proof (generate_when_high_rows _ _ _ _ _ _ _ _ _ N_classes Hperm Hrun)
    as Hbase.
  pose proof (generate_when_high_rows _ _ _ _ _ _ _ _ _ (N_classes + 1)
                Hperm Hrun) as Hrest.
  apply generate_when_spec in Hrun as (pad & Hpos & _ & ->).
  split; [|split; [|split; [|split]]].
  - by apply Forall_forall.
  - intros e He.
    destruct (segments _ _ _ _ _ _ _) as [|[c d] segs]; simpl in He.
    + apply lookup_replicate in He as [-> _]. done.
    + by injection He as <-.
  - intros ->. done.
  - rewrite Hbase by (subst N_classes; lia). subst N_classes.
    assert (Hne : (Z.of_nat (length events_info)
                   =? Z.of_nat (length events_info) + 1) = false)
      by (apply Z.eqb_neq; lia).
    rewrite Hne, Z.eqb_refl, andb_false_r, andb_true_r.
    destruct include_baseline; lia.
  - rewrite Hrest by (subst N_classes; lia). subst N_classes.
    assert (Hne : (Z.of_nat (length events_info) + 1
                   =? Z.of_nat (length events_info)) = false)
      by (apply Z.eqb_neq; lia).
    rewrite Hne, Z.eqb_refl, andb_false_r, andb_true_r.
    destruct include_rest; lia.
Qed.

(** The layout on four trials of two classes with rest and baseline. *)
Lemma generate_when_layout_witness :
  ∃ evs,
    generate_when (λ l, rev l) [4000; 3000] 4 250 true 2000 true 5000
      = Some evs ∧
    evs !! 0%nat = Some (Event 0 0 2) ∧
    length (rows_of_class 3 evs) = 4%nat.
Proof.
  destruct (generate_when (λ l, rev l) [4000; 3000] 4 250 true 2000 true
              5000) as [evs|] eqn:Hrun; [|by vm_compute in Hrun].
  exists evs. split; [reflexivity|].
  destruct (generate_when_layout (λ l, rev l) [4000; 3000] 4 250 true 2000
              true 5000 evs) as (_ & _ & Hbase & _ & Hrest).
  - apply Permutation_sym, Permutation_rev.
  - exact Hrun.
  - split; [by apply Hbase|exact Hrest].
Defined.

(** ** The epochs of [generate_what] *)

Lemma py_slice_length {A} (l : list A) (t n : nat) :
  length (py_slice l (t * n) ((t + 1) * n)) = (n `min` (length l - t * n))%nat.
Proof.
  unfold py_slice. rewrite length_take, length_drop. f_equal. lia.
Qed.

Lemma set_row_Some (arr : list (option (list float))) (n t : nat)
    (v : list float) :
  is_Some (set_row arr n t v)
  ↔ (t < length arr)%nat ∧ (length v = n ∨ length v = 1%nat).
Proof.
  unfold set_row. destruct (decide (t < length arr)%nat).
  - destruct (decide (length v = n)); [naive_solver|].
    destruct v as [|x [|y v]]; simpl in *.
    + split; [by intros []%is_Some_None|]. intros [_ [|]]; done.
    + naive_solver.
    + split; [by intros []%is_Some_None|]. intros [_ [|]]; done.
  - split; [by intros []%is_Some_None|]. by intros [? _].
Qed.

Lemma set_row_length (arr arr1 : list (option (list float))) (n t : nat)
    (v : list float) :
  set_row arr n t v = Some arr1 → length arr1 = length arr.
Proof.
  unfold set_row. repeat case_decide; try done.
  - intros [= <-]. apply length_insert.
  - destruct v as [|x [|y v]]; try done. intros [= <-]. apply length_insert.
Qed.

Lemma fill_epochs_Some (trials : list nat) (activity : list float) (n : nat) :
  ∀ arr,
    is_Some (fill_epochs trials activity n arr)
    ↔ Forall (λ t, (t < length arr)%nat ∧
                   ((n `min` (length activity - t * n))%nat = n
                    ∨ (n `min` (length activity - t * n))%nat = 1%nat))
        trials.
Proof.
  induction trials as [|t trials IH]; intros arr; simpl.
  - split; [constructor|eauto].
  - rewrite Forall_cons, <- (py_slice_length activity t n).
    rewrite <- set_row_Some.
    destruct (set_row arr n t _) as [arr1|] eqn:Hrow; simpl.
    + rewrite IH, (set_row_length _ _ _ _ _ Hrow). naive_solver.
    + split; [by intros []%is_Some_None|]. by intros [[]%is_Some_None _].
Qed.

(** X5. For epochs of at least two samples, the epoching of [generate_what]
    returns exactly when the waveform holds [N_trials_class] whole epochs,
    or no epoch is asked for, or the waveform ends one sample into the last
    epoch (that sample is then repeated over the whole epoch); otherwise the
    row assignment raises [ValueError]. *)
Theorem generate_what_epochs_returns (activity : list float)
    (N_trials_class n : nat) :
  (2 ≤ n)%nat →
  is_Some (generate_what_epochs activity N_trials_class (Z.of_nat n))
  ↔ (N_trials_class * n ≤ length activity)%nat
    ∨ N_trials_class = 0%nat
    ∨ length activity = ((N_trials_class - 1) * n + 1)%nat.
Proof.
  intros Hn. unfold generate_what_epochs.
  destruct (Z.of_nat n <? 0) eqn:Hneg; [lia|].
  rewrite Nat2Z.id, fill_epochs_Some. unfold np_empty.
  rewrite length_replicate, Forall_forall.
  setoid_rewrite elem_of_seq. split.
  - intros Hall. destruct N_trials_class as [|r]; [auto|].
    destruct (Hall r) as [_ Hlast]; [lia|].
    simpl in *. rewrite Nat.sub_0_r. destruct Hlast; [left|right; right]; nia.
  - intros Hcase t Ht. split; [lia|].
    destruct Hcase as [Hfull|[->|Hone]]; [left; nia|lia|].
    destruct (decide (t = N_trials_class - 1)%nat) as [->|Hne].
    + right. lia.
    + left. nia.
Qed.

(** Ten trials of 250 samples need a waveform of 2500 samples. *)
Lemma generate_what_epochs_returns_witness :
  is_Some (generate_what_epochs (replicate 2500 1%float) 10 250).
Proof.
  apply (proj2 (generate_what_epochs_returns (replicate 2500 1%float)
                  10 250 ltac:(lia))).
  left. rewrite length_replicate. lia.
Defined.

Lemma fill_epochs_full (activity : list float) (n m : nat) :
  ∀ (k : nat) (rows : list (option (list float))),
    length rows = k →
    ((k + m) * n ≤ length activity)%nat →
    fill_epochs (seq k m) activity n (rows ++ replicate m None)
    = Some (rows ++ ((λ t, Some (py_slice activity (t * n) ((t + 1) * n)))
                       <$> seq k m)).
Proof.
  induction m as [|m IH]; intros k rows Hk Hlen; simpl.
  - done.
  - unfold set_row.
    rewrite decide_True by (rewrite length_app; simpl; lia).
    rewrite decide_True by (rewrite py_slice_length; nia).
    cbn [mbind option_bind].
    rewrite <- Hk, insert_app_r_alt, Nat.sub_diag by lia. simpl.
    rewrite (cons_middle _ rows), app_assoc.
    rewrite Hk, IH; [by rewrite <- app_assoc|rewrite length_app; simpl; lia|lia].
Qed.

Lemma take_add_app {A} (l : list A) (a b : nat) :
  take (a + b) l = take a l ++ take b (drop a l).
Proof.
  revert l. induction a as [|a IH]; intros [|x l]; simpl; try done.
  - by rewrite take_nil.
  - by rewrite IH.
Qed.

Lemma windows_concat {A} (l : list A) (n m : nat) :
  ∀ k : nat,
    concat ((λ t, py_slice l (t * n) ((t + 1) * n)) <$> seq k m)
    = take (m * n) (drop (k * n) l).
Proof.
  induction m as [|m IH]; intros k; simpl; [done|].
  rewrite IH, take_add_app, drop_drop. unfold py_slice.
  do 2 f_equal; f_equal; lia.
Qed.

(** X6. When the waveform holds [N_trials_class] whole epochs, the epoching
    of [generate_what] returns them all written, epoch [t] being the window
    of [N_samples_trial] samples that starts at [t * N_samples_trial]: the
    epochs are consecutive and disjoint, and laid end to end they are the
    first [N_trials_class * N_samples_trial] samples of the waveform. *)
Theorem generate_what_epochs_windows (activity : list float)
    (N_trials_class n : nat) :
  (N_trials_class * n ≤ length activity)%nat →
  let windows :=
    (λ t, py_slice activity (t * n) ((t + 1) * n)) <$> seq 0 N_trials_class in
  generate_what_epochs activity N_trials_class (Z.of_nat n)
    = Some (Some <$> windows) ∧
  Forall (λ w, length w = n) windows ∧
  concat windows = take (N_trials_class * n) activity.
Proof.
  intros Hlen windows. split; [|split].
  - unfold generate_what_epochs.
    destruct (Z.of_nat n <? 0) eqn:Hneg; [lia|].
    rewrite Nat2Z.id. unfold np_empty.
    change (replicate N_trials_class None)
      with ([] ++ replicate N_trials_class (@None (list float))).
    rewrite (fill_epochs_full activity n N_trials_class 0 []) by (done || lia).
    simpl. subst windows. by rewrite <- list_fmap_compose.
  - subst windows. apply Forall_fmap, Forall_forall.
    intros t Ht%elem_of_seq. simpl. rewrite py_slice_length. nia.
  - subst windows. by rewrite windows_concat.
Qed.

(** Two epochs of two samples out of a waveform of five. *)
Lemma generate_what_epochs_windows_witness :
  generate_what_epochs [1; 2; 3; 4; 5]%float 2 2
  = Some [Some [1; 2]; Some [3; 4]]%float.
Proof.
  refine (proj1 (generate_what_epochs_windows [1; 2; 3; 4; 5]%float 2 2 _)).
  simpl. lia.
Defined.

(** ** [generate_when] followed by [generate_what] *)

Lemma span_const (n : Z) (segs : list (Z * Z)) :
  Forall (λ seg, snd seg = n) segs →
  span segs = Z.of_nat (length segs) * n.
Proof.
  unfold span. induction 1 as [|seg segs Hseg _ IH]; simpl; [done|].
  rewrite IH, Hseg. lia.
Qed.

Lemma trial_segments_const (events_info : list Z) (sfreq : Z)
    (rest_duration : Z) (trials_ID : list nat) (duration : Z) :
  Forall (λ d, d = duration) events_info →
  Forall (λ i, i < length events_info)%nat trials_ID →
  Forall (λ seg, snd seg = samples duration sfreq)
    (trial_segments events_info sfreq false rest_duration trials_ID).
Proof.
  intros Hinfo Hids. unfold trial_segments.
  induction Hids as [|id trials_ID Hid Hids IH]; simpl; [done|].
  apply Forall_cons. split; [|done]. simpl.
  apply lookup_lt_is_Some in Hid as [d Hd]. rewrite Hd. simpl.
  rewrite Forall_lookup in Hinfo. by rewrite (Hinfo id d Hd).
Qed.

(** X7. On the events that [generate_when] returns without baseline and
    rest, for classes that all last [MI_duration] and a number of trials
    that is a positive multiple of the number of tasks, the sizes
    [generate_what] derives fit: the session has
    [N_trials * N_samples_trial] samples and each task's waveform exactly
    [N_trials_class] epochs of [N_samples_trial] samples. *)
Theorem generate_what_sizes_balanced (permutation : list nat → list nat)
    (events_info : list Z) (N_trials : nat) (sfreq : Z)
    (rest_duration baseline_duration : Z) (evs : list event)
    (MI_tasks : list string) (MI_duration : Z) (sz : what_sizes) :
  permutation (repmat_arange (length events_info)
                 (N_trials / length events_info))
    ≡ₚ repmat_arange (length events_info) (N_trials / length events_info) →
  (N_trials `mod` length events_info = 0)%nat →
  (0 < N_trials)%nat →
  Forall (λ d, d = MI_duration) events_info →
  length MI_tasks = length events_info →
  generate_when permutation events_info N_trials sfreq false rest_duration
    false baseline_duration = Some evs →
  generate_what_sizes MI_tasks evs MI_duration sfreq N_trials = Some sz →
  N_samples sz = Z.of_nat N_trials * N_samples_trial sz ∧
  N_samples_class sz = Z.of_nat (N_trials_class sz) * N_samples_trial sz.
Proof.
  intros Hperm Hmod HN Hinfo Htasks Hrun Hsz.
  apply generate_when_spec in Hrun as (pad & Hpos & Hrows & ->).
  cbv zeta in Hrows.
  eapply generate_when_pad in Hrows; [|done|done].
  rewrite Hmod, Nat.mul_0_r in Hrows. subst pad.
  rewrite app_nil_r in Hsz. unfold segments in Hsz. simpl in Hsz.
  set (trials := permutation _) in *.
  assert (Hids : Forall (λ i, i < length events_info)%nat trials).
  { apply Forall_forall. intros i Hi. subst trials.
    rewrite Hperm in Hi. by apply repmat_arange_elem in Hi. }
  pose proof (Nat.div_mod_eq N_trials (length events_info)) as Hdiv.
  assert (Hlen : length trials = N_trials).
  { rewrite (Permutation_length Hperm), repmat_arange_length. lia. }
  set (segs := trial_segments events_info sfreq false rest_duration trials)
    in *.
  assert (Hsegs : length segs = N_trials).
  { unfold segs. rewrite trial_segments_length. lia. }
  pose proof (trial_segments_const events_info sfreq rest_duration trials
                MI_duration Hinfo Hids) as Hconst. fold segs in Hconst.
  unfold generate_what_sizes in Hsz.
  destruct (duration_samples MI_duration sfreq) as [n|] eqn:Hn; [|done].
  simpl in Hsz.
  destruct (last (timeline 0 segs)) as [e|] eqn:He; [|done]. simpl in Hsz.
  case_decide; [done|]. injection Hsz as <-. simpl.
  rewrite last_lookup, timeline_length in He.
  apply timeline_onset in He. rewrite He.
  unfold samples in Hconst. rewrite Hn in Hconst. simpl in Hconst.
  rewrite (span_const n) by by apply Forall_take.
  rewrite length_take, Hsegs, Htasks.
  replace (pred N_trials `min` N_trials)%nat with (N_trials - 1)%nat by lia.
  rewrite Nat2Z.inj_sub by lia.
  replace (0 + (Z.of_nat N_trials - Z.of_nat 1) * n + n)
    with (Z.of_nat N_trials * n) by lia.
  split; [done|].
  rewrite Hdiv at 1. rewrite Hmod, Nat.add_0_r, Nat2Z.inj_mul.
  rewrite <- Z.mul_assoc, Z.mul_comm, Z.div_mul by lia. done.
Qed.

(** The sizes on four trials of two classes of one second at 250 Hz. *)
Lemma generate_what_sizes_balanced_witness :
  ∃ evs sz,
    generate_when (λ l, rev l) [1000; 1000] 4 250 false 2000 false 5000
      = Some evs ∧
    generate_what_sizes ["MI/left"; "MI/right"] evs 1000 250 4 = Some sz ∧
    N_samples_class sz = Z.of_nat (N_trials_class sz) * N_samples_trial sz.
Proof.
  destruct (generate_when (λ l, rev l) [1000; 1000] 4 250 false 2000 false
              5000) as [evs|] eqn:Hrun; [|by vm_compute in Hrun].
  destruct (generate_what_sizes ["MI/left"; "MI/right"] evs 1000 250 4)
    as [sz|] eqn:Hsz;
    [|vm_compute in Hrun; injection Hrun as <-; by vm_compute in Hsz].
  exists evs, sz. split; [reflexivity|]. split; [exact Hsz|].
  refine (proj2 (generate_what_sizes_balanced (λ l, rev l) [1000; 1000] 4
                   250 2000 5000 evs ["MI/left"; "MI/right"] 1000 sz
                   _ _ _ _ _ Hrun Hsz)).
  - apply Permutation_sym, Permutation_rev.
  - reflexivity.
  - lia.
  - by repeat constructor.
  - reflexivity.
Defined.

(** X8. When [N_trials] is not a multiple of the number of classes, the last
    row of the events of [generate_when] is a zero row, so [generate_what]
    takes the session to be one trial long; with at least one trial per
    task and epochs of two samples or more, each task's waveform is then
    shorter than one epoch and the epoching raises [ValueError], unless the
    waveform is a single sample. *)
Theorem generate_what_unbalanced (permutation : list nat → list nat)
    (events_info : list Z) (N_trials : nat) (sfreq : Z)
    (include_rest : bool) (rest_duration : Z)
    (include_baseline : bool) (baseline_duration : Z) (evs : list event)
    (MI_tasks : list string) (MI_duration : Z) (sz : what_sizes) :
  permutation (repmat_arange (length events_info)
                 (N_trials / length events_info))
    ≡ₚ repmat_arange (length events_info) (N_trials / length events_info) →
  (N_trials `mod` length events_info ≠ 0)%nat →
  length MI_tasks = length events_info →
  generate_when permutation events_info N_trials sfreq include_rest
    rest_duration include_baseline baseline_duration = Some evs →
  generate_what_sizes MI_tasks evs MI_duration sfreq N_trials = Some sz →
  N_samples sz = N_samples_trial sz ∧
  ∀ activity : list float,
    (length events_info ≤ N_trials)%nat →
    2 ≤ N_samples_trial sz →
    N_samples_class sz ≠ 1 →
    length activity = Z.to_nat (N_samples_class sz) →
    generate_what_epochs activity (N_trials_class sz) (N_samples_trial sz)
    = None.
Proof.
  intros Hperm Hmod Htasks Hrun Hsz.
  apply generate_when_spec in Hrun as (pad & Hpos & Hrows & ->).
  cbv zeta in Hrows.
  eapply generate_when_pad in Hrows; [|done|done].
  assert (Hpad : (0 < pad)%nat)
    by (rewrite Hrows; destruct include_rest; lia).
  destruct pad as [|p]; [lia|].
  rewrite replicate_S_end, app_assoc in Hsz.
  unfold generate_what_sizes in Hsz.
  destruct (duration_samples MI_duration sfreq) as [n|]; [|done].
  simpl in Hsz. rewrite last_snoc in Hsz. simpl in Hsz.
  case_decide; [done|]. injection Hsz as <-. simpl.
  split; [done|]. intros activity HN Hn Hone Hact.
  assert (HC : (2 ≤ length events_info)%nat).
  { destruct (length events_info) as [|[|c]]; simpl in Hmod; lia. }
  assert (Hq : 0 ≤ n `div` Z.of_nat (length MI_tasks) < n).
  { rewrite Htasks. split; [apply Z.div_pos; lia|].
    apply Z.div_lt; lia. }
  apply eq_None_not_Some. unfold generate_what_epochs.
  destruct (n <? 0) eqn:Hneg; [lia|].
  rewrite fill_epochs_Some, Forall_forall. intros Hall.
  destruct (Hall 0%nat) as [_ Hrow].
  { apply elem_of_seq. rewrite Htasks.
    split; [done|]. simpl. apply Nat.div_str_pos. split; [done|]. exact HN. }
  simpl in Hrow. rewrite Nat.sub_0_r, Hact in Hrow.
  rewrite Z.add_0_l in *.
  set (q := n `div` Z.of_nat (length MI_tasks)) in *. lia.
Qed.

(** Five trials of two classes of one second at 250 Hz. *)
Lemma generate_what_unbalanced_witness :
  ∃ evs sz,
    generate_when (λ l, rev l) [1000; 1000] 5 250 false 2000 false 5000
      = Some evs ∧
    generate_what_sizes ["MI/left"; "MI/right"] evs 1000 250 5 = Some sz ∧
    N_samples sz = N_samples_trial sz ∧
    generate_what_epochs (replicate 125 1%float) (N_trials_class sz)
      (N_samples_trial sz) = None.
Proof.
  destruct (generate_when (λ l, rev l) [1000; 1000] 5 250 false 2000 false
              5000) as [evs|] eqn:Hrun; [|by vm_compute in Hrun].
  destruct (generate_what_sizes ["MI/left"; "MI/right"] evs 1000 250 5)
    as [sz|] eqn:Hsz;
    [|vm_compute in Hrun; injection Hrun as <-; by vm_compute in Hsz].
  exists evs, sz. split; [reflexivity|]. split; [exact Hsz|].
  destruct (generate_what_unbalanced (λ l, rev l) [1000; 1000] 5 250 false
              2000 false 5000 evs ["MI/left"; "MI/right"] 1000 sz)
    as [Hone Hfail].
  - apply Permutation_sym, Permutation_rev.
  - by vm_compute.
  - reflexivity.
  - exact Hrun.
  - exact Hsz.
  - split; [exact Hone|].
    vm_compute in Hrun. injection Hrun as <-.
    vm_compute in Hsz. injection Hsz as <-.
    apply Hfail; [simpl; lia|simpl; lia|simpl; lia|reflexivity].
Defined.

(** ** Further properties of [generate_what_failed] *)

Lemma set_row_spec (arr arr1 : list (option (list float))) (n t : nat)
    (v : list float) :
  set_row arr n t v = Some arr1 →
  (t < length arr)%nat ∧
  ∃ v', arr1 = <[t := Some v']> arr ∧ length v' = n ∧
        (v' = v ∨ ∃ x, v = [x] ∧ v' = replicate n x).
Proof.
  unfold set_row. intros Hrun.
  destruct (decide (t < length arr)%nat); [|done]. split; [done|].
  destruct (decide (length v = n)).
  - injection Hrun as <-. eauto.
  - destruct v as [|x [|y v]]; try done. injection Hrun as <-.
    eexists. split; [done|]. rewrite length_replicate. eauto.
Qed.

Lemma fill_failed_spec (erd : bool) (activity activity_wrong : list float)
    (n : nat) (tmp : list bool) :
  ∀ (t : nat) (arr rows : list (option (list float))),
    fill_failed tmp t erd activity activity_wrong n arr = Some rows →
    length rows = length arr ∧
    (tmp ≠ [] → (t + length tmp ≤ length arr)%nat) ∧
    (∀ j, (j < t ∨ t + length tmp ≤ j)%nat → rows !! j = arr !! j) ∧
    (∀ k bad, tmp !! k = Some bad →
       ∃ v, rows !! (t + k)%nat = Some (Some v) ∧ length v = n ∧
            let w := py_slice (if bad && erd then activity_wrong
                               else activity)
                       ((t + k) * n) ((t + k + 1) * n) in
            v = w ∨ ∃ x, w = [x] ∧ v = replicate n x).
Proof.
  induction tmp as [|b tmp IH]; intros t arr rows Hrun; simpl in Hrun.
  - injection Hrun as <-. repeat split; try done.
  - destruct (set_row arr n t _) as [arr1|] eqn:Hrow; [|done].
    simpl in Hrun.
    apply set_row_spec in Hrow as (Ht & v' & -> & Hv' & Hsrc).
    apply IH in Hrun as (Hlen & Hfit & Hout & Hin).
    rewrite length_insert in Hlen, Hfit.
    split; [done|]. split; [|split].
    + intros _. destruct tmp as [|b' tmp]; simpl in *; [lia|].
      specialize (Hfit ltac:(done)). lia.
    + intros j Hj. simpl in Hj. rewrite Hout by lia.
      apply list_lookup_insert_ne. lia.
    + intros [|k] bad Hk; simpl in Hk.
      * injection Hk as ->. exists v'. rewrite Nat.add_0_r.
        split; [|done]. rewrite Hout by lia.
        by apply list_lookup_insert_eq.
      * destruct (Hin k bad Hk) as (v & Hv & Hvn & Hvw).
        exists v. replace (t + S k)%nat with (S t + k)%nat by lia. done.
Qed.

Lemma take_idx_spec (v tmp : list bool) (idx : list nat) :
  take_idx v idx = Some tmp →
  length tmp = length idx ∧
  ∀ k i, idx !! k = Some i → tmp !! k = v !! i ∧ is_Some (v !! i).
Proof.
  unfold take_idx. intros Hm%mapM_Some. split.
  - symmetry. by eapply Forall2_length.
  - intros k i Hk.
    destruct (Forall2_lookup_l _ _ _ _ _ Hm Hk) as (b & Hb & Hvi).
    rewrite Hb, Hvi. eauto.
Qed.

(** X9. The epochs [generate_what_failed] builds for one label and task from
    the rows of class id [task_ID].  There are at most [N_trials_class] such
    rows (one more is an [IndexError]); epoch [t] is read at the [t]-th of
    them: it is the window [t] of the no-modulation waveform when that row
    is marked and the label's power is the reduced one, of the standard
    waveform otherwise (a one-sample window is repeated over the epoch); the
    epochs after them are left as [np.empty] allocated them. *)
Theorem epochs_failed_rows (bad_trials_vector : list bool)
    (events : list event) (task_ID : Z) (erd : bool)
    (activity activity_wrong : list float)
    (N_trials_class n : nat) (rows : list (option (list float))) :
  epochs_failed bad_trials_vector events task_ID erd activity activity_wrong
    N_trials_class n = Some rows →
  let idx := where_class events task_ID in
  length rows = N_trials_class ∧
  (length idx ≤ N_trials_class)%nat ∧
  (∀ t, (length idx ≤ t < N_trials_class)%nat → rows !! t = Some None) ∧
  (∀ t i, idx !! t = Some i →
     ∃ bad v,
       bad_trials_vector !! i = Some bad ∧
       rows !! t = Some (Some v) ∧ length v = n ∧
       let w := py_slice (if bad && erd then activity_wrong else activity)
                  (t * n) ((t + 1) * n) in
       v = w ∨ ∃ x, w = [x] ∧ v = replicate n x).
Proof.
  intros Hrun idx. unfold epochs_failed in Hrun. fold idx in Hrun.
  destruct (take_idx bad_trials_vector idx) as [tmp|] eqn:Htmp; [|done].
  simpl in Hrun. apply take_idx_spec in Htmp as [Hlen Htmp].
  apply fill_failed_spec in Hrun as (Hrows & Hfit & Hout & Hin).
  unfold np_empty in *. rewrite length_replicate in Hrows, Hfit.
  split; [done|]. split; [|split].
  - destruct tmp as [|b tmp]; [simpl in Hlen; lia|].
    specialize (Hfit ltac:(done)). lia.
  - intros t Ht. rewrite Hout by lia. apply lookup_replicate_2. lia.
  - intros t i Hi. destruct (Htmp t i Hi) as [Hb [bad Hbad]].
    rewrite Hbad in Hb. destruct (Hin t bad Hb) as (v & Hv & Hvn & Hvw).
    exists bad, v. simpl in *. done.
Qed.

(** The rows on four events of which the two of class id 1 are read. *)
Lemma epochs_failed_rows_witness :
  ∃ rows,
    epochs_failed [false; true; false; false]
      [Event 0 0 0; Event 2 0 1; Event 4 0 0; Event 6 0 1] 1 true
      [1; 1; 1; 1; 1; 1]%float [2; 2; 2; 2; 2; 2]%float 3 2 = Some rows ∧
    rows !! 2%nat = Some None.
Proof.
  destruct (epochs_failed [false; true; false; false]
              [Event 0 0 0; Event 2 0 1; Event 4 0 0; Event 6 0 1] 1 true
              [1; 1; 1; 1; 1; 1]%float [2; 2; 2; 2; 2; 2]%float 3 2)
    as [rows|] eqn:Hrun; [|by vm_compute in Hrun].
  exists rows. split; [reflexivity|].
  destruct (epochs_failed_rows _ _ _ _ _ _ _ _ rows Hrun)
    as (_ & _ & Hafter & _).
  apply Hafter. vm_compute. lia.
Defined.

Lemma where_class_nil (events : list event) (c : Z) :
  Forall (λ e, class_id e ≠ c) events → where_class events c = [].
Proof.
  intros Hall. destruct (where_class events c) as [|i l] eqn:Hw; [done|].
  assert (Hi : i ∈ where_class events c) by (rewrite Hw; left).
  apply where_class_elem in Hi as (e & He & Hc).
  rewrite Forall_lookup in Hall. by destruct (Hall i e He).
Qed.

Lemma generate_when_trial_classes (permutation : list nat → list nat)
    (events_info : list Z) (N_trials : nat) (sfreq : Z)
    (rest_duration baseline_duration : Z) (evs : list event) :
  permutation (repmat_arange (length events_info)
                 (N_trials / length events_info))
    ≡ₚ repmat_arange (length events_info) (N_trials / length events_info) →
  generate_when permutation events_info N_trials sfreq false rest_duration
    false baseline_duration = Some evs →
  Forall (λ e, 0 ≤ class_id e < Z.of_nat (length events_info)) evs.
Proof.
  intros Hperm Hrun.
  apply generate_when_spec in Hrun as (pad & Hpos & _ & ->).
  apply Forall_forall. intros e [He|He]%elem_of_app.
  - apply timeline_elem in He as (_ & seg & Hseg & ->).
    apply segments_class in Hseg as [?|[[? _]|[? _]]]; try done.
    apply Forall_forall. intros i Hi.
    rewrite Hperm in Hi. by apply repmat_arange_elem in Hi.
  - apply elem_of_replicate in He as [-> _]. simpl. lia.
Qed.

(** X10. On the events [generate_when] returns without baseline and rest,
    [generate_what_failed] never writes an epoch of the last task of
    [MI_tasks]: its sub-vector is read at class id [len(MI_tasks)], which no
    event carries, so the task's array is returned as [np.empty] allocated
    it. *)
Theorem generate_what_failed_last_task (permutation : list nat → list nat)
    (events_info : list Z) (N_trials : nat) (sfreq : Z)
    (rest_duration baseline_duration : Z) (evs : list event)
    (MI_tasks : list string) (task : string)
    (bad_trials_vector : list bool) (erd : string → bool)
    (activity activity_wrong : string → list float)
    (N_trials_class n : nat)
    (epoched : gmap string (list (option (list float)))) :
  permutation (repmat_arange (length events_info)
                 (N_trials / length events_info))
    ≡ₚ repmat_arange (length events_info) (N_trials / length events_info) →
  generate_when permutation events_info N_trials sfreq false rest_duration
    false baseline_duration = Some evs →
  length MI_tasks = length events_info →
  last MI_tasks = Some task →
  generate_what_failed_label MI_tasks evs bad_trials_vector erd activity
    activity_wrong N_trials_class n = Some epoched →
  where_class evs (Z.of_nat (length MI_tasks)) = [] ∧
  epoched !! task = Some (np_empty N_trials_class).
Proof.
  intros Hperm Hrun Hlen Hlast Hwhat.
  pose proof (generate_when_trial_classes _ _ _ _ _ _ _ Hperm Hrun) as Hcls.
  assert (Hnil : where_class evs (Z.of_nat (length MI_tasks)) = []).
  { apply where_class_nil. eapply Forall_impl; [exact Hcls|].
    simpl. intros e He. lia. }
  split; [done|].
  apply last_Some in Hlast as [init ->].
  unfold generate_what_failed_label, enumerate in Hwhat.
  rewrite imap_app, foldl_app in Hwhat. simpl in Hwhat.
  destruct (foldl _ _ _) as [acc|] in Hwhat; [|done]. simpl in Hwhat.
  rewrite length_app in Hnil. simpl in Hnil.
  replace (1 + Z.of_nat (length init + 0))
    with (Z.of_nat (length init + 1)) in Hwhat by lia.
  unfold epochs_failed in Hwhat. rewrite Hnil in Hwhat. simpl in Hwhat.
  injection Hwhat as <-. apply lookup_insert_eq.
Qed.

(** The last task on four trials of two classes. *)
Lemma generate_what_failed_last_task_witness :
  ∃ evs epoched,
    generate_when (λ l, rev l) [8; 8] 4 250 false 2000 false 5000
      = Some evs ∧
    generate_what_failed_label ["MI/left"; "MI/right"] evs
      [true; false; false; false] (λ _, true)
      (λ _, [1; 1; 1; 1]%float) (λ _, [2; 2; 2; 2]%float) 2 2
      = Some epoched ∧
    epoched !! "MI/right" = Some [None; None].
Proof.
  destruct (generate_when (λ l, rev l) [8; 8] 4 250 false 2000 false 5000)
    as [evs|] eqn:Hrun; [|by vm_compute in Hrun].
  destruct (generate_what_failed_label ["MI/left"; "MI/right"] evs
              [true; false; false; false] (λ _, true)
              (λ _, [1; 1; 1; 1]%float) (λ _, [2; 2; 2; 2]%float) 2 2)
    as [epoched|] eqn:Hwhat;
    [|vm_compute in Hrun; injection Hrun as <-; by vm_compute in Hwhat].
  exists evs, epoched. split; [reflexivity|]. split; [exact Hwhat|].
  refine (proj2 (generate_what_failed_last_task (λ l, rev l) [8; 8] 4 250
                   2000 5000 evs ["MI/left"; "MI/right"] "MI/right" _ _ _ _
                   2 2 epoched _ Hrun _ _ Hwhat)).
  - apply Permutation_sym, Permutation_rev.
  - reflexivity.
  - reflexivity.
Defined.

(** X11. When the generator returns, for a population of [n] and a size
    [k], [k] indices below [n], the bad-trials vector of
    [generate_what_failed] is built exactly when the size
    [int(p_failed*N_trials/2)] is not negative and, if it is positive, some
    event has class id 0 or 1; otherwise [rng.choice] raises
    [ValueError]. *)
Theorem bad_trials_vector_returns (integers : nat → nat → list nat)
    (events : list event) (N_trials : nat) (p_failed : float) (size : Z) :
  (∀ n k, length (integers n k) = k
          ∧ ((0 < n)%nat → Forall (λ i, i < n)%nat (integers n k))) →
  N_failed p_failed N_trials = Some size →
  is_Some (bad_trials_vector integers events N_trials p_failed)
  ↔ 0 ≤ size ∧ (size = 0 ∨ MI_positions events ≠ []).
Proof.
  intros Hdraw Hsize. unfold bad_trials_vector. rewrite Hsize. simpl.
  unfold rng_choice.
  destruct (size <? 0) eqn:Hneg.
  { simpl. split; [by intros []%is_Some_None|lia]. }
  apply Z.ltb_ge in Hneg.
  destruct (decide (MI_positions events = [])) as [Hnil|Hpos].
  - rewrite bool_decide_eq_true_2 by done. simpl.
    destruct (0 <? size) eqn:Hs.
    + simpl. split; [by intros []%is_Some_None|]. intros [_ [|]]; [lia|done].
    + apply Z.ltb_ge in Hs. assert (size = 0) as -> by lia.
      rewrite Hnil. simpl.
      destruct (Hdraw 0%nat 0%nat) as [Hlen _].
      apply nil_length_inv in Hlen.
      change (Z.to_nat 0) with 0%nat. rewrite Hlen. simpl.
      split; [auto|eauto].
  - rewrite bool_decide_eq_false_2 by done. simpl.
    split; [intros _; split; [done|by right]|]. intros _.
    destruct (Hdraw (length (MI_positions events)) (Z.to_nat size))
      as [_ Hrange].
    specialize (Hrange ltac:(by destruct (MI_positions events);
                                [|simpl; lia])).
    assert (Hpicks : is_Some (mapM (λ i, MI_positions events !! i)
              (integers (length (MI_positions events)) (Z.to_nat size)))).
    { apply mapM_is_Some. eapply Forall_impl; [exact Hrange|].
      simpl. intros i Hi. by apply lookup_lt_is_Some. }
    destruct Hpicks as [picks Hpicks]. rewrite Hpicks. simpl.
    assert (Hin : Forall (λ i, i < length (replicate (length events) false))%nat
                    picks).
    { apply mapM_Some in Hpicks. apply Forall_forall. intros i Hi.
      apply list_elem_of_lookup in Hi as [k Hk].
      destruct (Forall2_lookup_r _ _ _ _ _ Hpicks Hk) as (j & _ & Hj).
      apply list_elem_of_lookup_2, MI_positions_elem in Hj as (e & He & _).
      rewrite length_replicate. by eapply lookup_lt_Some. }
    clear Hpicks. revert Hin. generalize (replicate (length events) false).
    induction picks as [|i picks IH]; intros v Hin; simpl; [eauto|].
    apply Forall_cons in Hin as [Hi Hin].
    rewrite decide_True by done. apply IH.
    eapply Forall_impl; [exact Hin|]. simpl. intros j Hj.
    by rewrite length_insert.
Qed.

(** The vector on events without a class id 0 or 1 and one failed trial. *)
Lemma bad_trials_vector_returns_witness :
  bad_trials_vector (λ _ k, replicate k 0%nat) [Event 0 0 2; Event 250 0 3]
    4 0.5 = None.
Proof.
  apply eq_None_not_Some.
  rewrite (bad_trials_vector_returns (λ _ k, replicate k 0%nat)
             [Event 0 0 2; Event 250 0 3] 4 0.5 1).
  - intros [_ [Hs|Hp]]; [discriminate Hs|by apply Hp].
  - intros n k. split; [apply length_replicate|].
    intros Hn. by apply Forall_replicate.
  - reflexivity.
Defined.

(** ** Further properties of the power envelope *)

(** X12. The envelope of [theta_activity] and [alpha_activity], on binary64
    numbers as in any arithmetic.  The output has one sample per input sample.
    With [scale == 1], or with an [increase_dynamic] that is neither
    ['linear'] nor ['constant'], no envelope is applied: the output is the
    filtered activity times [1e-8].  Otherwise, under ['linear'] and with
    two samples or more, the last sample is scaled by [scale] itself, since
    [np.linspace] stores its end point unrounded. *)
Theorem power_envelope_edges {R} `{Sample R} (filtered : list R)
    (increase_dynamic : string) (scale : R) :
  length (theta_activity filtered increase_dynamic scale) = length filtered ∧
  length (alpha_activity filtered increase_dynamic scale) = length filtered ∧
  (eqb scale (of_nat 1) = true
   ∨ increase_dynamic ≠ "linear" ∧ increase_dynamic ≠ "constant" →
   theta_activity filtered increase_dynamic scale = mul tiny <$> filtered ∧
   alpha_activity filtered increase_dynamic scale = mul tiny <$> filtered) ∧
  (eqb scale (of_nat 1) = false → (2 ≤ length filtered)%nat →
   ∀ x, last filtered = Some x →
     last (theta_activity filtered "linear" scale)
       = Some (mul tiny (mul x scale)) ∧
     last (alpha_activity filtered "linear" scale)
       = Some (mul tiny (mul x scale))).
Proof.
  assert (Hlen : length (theta_activity filtered increase_dynamic scale)
                 = length filtered).
  { unfold theta_activity. rewrite length_fmap.
    destruct (negb _); [|done]. repeat case_bool_decide; [| |done].
    - rewrite length_zip_with, np_linspace_length. lia.
    - by rewrite length_fmap. }
  assert (Hskip : eqb scale (of_nat 1) = true
            ∨ increase_dynamic ≠ "linear" ∧ increase_dynamic ≠ "constant" →
            theta_activity filtered increase_dynamic scale
            = mul tiny <$> filtered).
  { unfold theta_activity. intros [-> | [Hl Hc]]; [done|].
    rewrite !bool_decide_eq_false_2 by done. by destruct (negb _). }
  assert (Hlast : eqb scale (of_nat 1) = false → (2 ≤ length filtered)%nat →
            ∀ x, last filtered = Some x →
              last (theta_activity filtered "linear" scale)
              = Some (mul tiny (mul x scale))).
  { intros Hguard HN x Hx. unfold theta_activity. rewrite Hguard. simpl.
    rewrite last_lookup in Hx |- *.
    rewrite length_fmap, length_zip_with, np_linspace_length, Nat.min_id.
    rewrite list_lookup_fmap, lookup_zip_with, Hx. simpl.
    replace (pred (length filtered)) with (length filtered - 1)%nat by lia.
    by rewrite np_linspace_last. }
  split; [done|]. split; [exact Hlen|].
  split; [intros Hcase; split; by apply Hskip|].
  intros Hguard HN x Hx. split; by apply Hlast.
Qed.

(** The end point on binary64 numbers: three samples under [scale = 45]. *)
Lemma power_envelope_edges_witness :
  last (theta_activity [1; 1; 2]%float "linear" 45%float)
  = Some (1e-8 * (2 * 45))%float.
Proof.
  refine (proj1 (proj2 (proj2 (proj2
            (power_envelope_edges [1; 1; 2]%float "linear" 45%float)))
            _ _ 2%float _)).
  - reflexivity.
  - simpl. lia.
  - reflexivity.
Defined.

(** ** The markers of [save_mat_simulated_data] *)

Lemma boolean_index_fmap {A B} (f : A → B) (p : A → bool) (l : list A) :
  boolean_index (f <$> l) (p <$> l) = f <$> filter (λ x, p x = true) l.
Proof.
  unfold boolean_index. induction l as [|x l IH]; [done|].
  rewrite !fmap_cons. simpl zip. rewrite !filter_cons. simpl.
  destruct (decide (p x = true)); [rewrite !fmap_cons|]; by rewrite IH.
Qed.

Lemma mrk_filter (events : list event) :
  mrk events
  = (onset_sample <$> filter (λ e, class_id e ≠ 3) events,
     class_id <$> filter (λ e, class_id e ≠ 3) events).
Proof.
  assert (Hkept : filter (λ e, negb (class_id e =? 3) = true) events
                  = filter (λ e, class_id e ≠ 3) events).
  { apply list_filter_iff. intros e. rewrite negb_true_iff, Z.eqb_neq. done. }
  unfold mrk. by rewrite !boolean_index_fmap, Hkept.
Qed.

Lemma kept_length (events : list event) :
  length (filter (λ e, class_id e ≠ 3) events)
  = (length events - length (rows_of_class 3 events))%nat.
Proof.
  unfold rows_of_class. induction events as [|e events IH]; [done|].
  rewrite !filter_cons.
  pose proof (length_filter (λ e, class_id e = 3) events).
  destruct (decide (class_id e ≠ 3)), (decide (class_id e = 3));
    simpl; try done; lia.
Qed.

(** X13. The markers [save_mat_simulated_data] writes are the onsets and
    the class ids of the same rows, those whose class id is not 3, in the
    order of the events; so both vectors have one length and no marker has
    class id 3. *)
Theorem mrk_rows (events : list event) :
  mrk events
  = (onset_sample <$> filter (λ e, class_id e ≠ 3) events,
     class_id <$> filter (λ e, class_id e ≠ 3) events) ∧
  length (fst (mrk events)) = length (snd (mrk events)) ∧
  (3 ∉ snd (mrk events)) ∧
  length (snd (mrk events))
  = (length events - length (rows_of_class 3 events))%nat.
Proof.
  rewrite mrk_filter. simpl. split; [done|].
  split; [by rewrite !length_fmap|]. split.
  - intros (e & He & Hin)%list_elem_of_fmap.
    apply list_elem_of_filter in Hin as [Hne _]. by symmetry in He.
  - rewrite length_fmap. apply kept_length.
Qed.

(** X14. For a session of two classes with rest segments and an even number
    of trials, the rows [save_mat_simulated_data] leaves out are the rest
    segments, whose class id is 3: [N_trials] markers remain, one more with
    a baseline, each of class id 0, 1 or 2. *)
Theorem mrk_two_classes (permutation : list nat → list nat)
    (events_info : list Z) (N_trials : nat) (sfreq : Z)
    (rest_duration : Z) (include_baseline : bool) (baseline_duration : Z)
    (evs : list event) :
  length events_info = 2%nat →
  permutation (repmat_arange (length events_info)
                 (N_trials / length events_info))
    ≡ₚ repmat_arange (length events_info) (N_trials / length events_info) →
  (N_trials `mod` 2 = 0)%nat →
  generate_when permutation events_info N_trials sfreq true rest_duration
    include_baseline baseline_duration = Some evs →
  length (snd (mrk evs))
    = (N_trials + if include_baseline then 1 else 0)%nat ∧
  ∀ y, y ∈ snd (mrk evs) → 0 ≤ y ≤ 2.
Proof.
  intros HC Hperm Hmod Hrun.
  rewrite mrk_filter. simpl. rewrite length_fmap, kept_length.
  pose proof (generate_when_high_rows _ _ _ _ _ _ _ _ _ 3 Hperm Hrun) as H3.
  pose proof (generate_when_classes _ _ _ _ _ _ _ _ _ Hperm Hrun) as Hcls.
  apply generate_when_spec in Hrun as Hspec.
  destruct Hspec as (pad & _ & Hrows & Hevs). cbv zeta in Hrows.
  eapply generate_when_pad in Hrows as Hpad; [|lia|done].
  rewrite HC in *. rewrite Hmod in Hpad. subst pad.
  assert (Hlen : length evs = n_rows N_trials true include_baseline).
  { rewrite Hrows, Hevs, length_app, length_replicate, timeline_length.
    done. }
  rewrite H3 by (simpl; lia). rewrite Hlen. unfold n_rows.
  pose proof (Nat.div_mod_eq N_trials 2) as Hdiv.
  change (3 =? Z.of_nat 2) with false. change (3 =? Z.of_nat 2 + 1) with true.
  rewrite andb_false_r. simpl andb. cbv iota.
  split; [destruct include_baseline; lia|].
  intros y (e & -> & Hin)%list_elem_of_fmap.
  apply list_elem_of_filter in Hin as [Hne He].
  rewrite Forall_forall in Hcls. specialize (Hcls e He). simpl in Hcls. lia.
Qed.

(** The markers of four trials of two classes with rest and baseline. *)
Lemma mrk_two_classes_witness :
  ∃ evs,
    generate_when (λ l, rev l) [4000; 3000] 4 250 true 2000 true 5000
      = Some evs ∧
    length (snd (mrk evs)) = 5%nat.
Proof.
  destruct (generate_when (λ l, rev l) [4000; 3000] 4 250 true 2000 true
              5000) as [evs|] eqn:Hrun; [|by vm_compute in Hrun].
  exists evs. split; [reflexivity|].
  refine (proj1 (mrk_two_classes (λ l, rev l) [4000; 3000] 4 250 2000 true
                   5000 evs _ _ _ Hrun)).
  - reflexivity.
  - apply Permutation_sym, Permutation_rev.
  - reflexivity.
Defined.

Lemma segments_nonneg (events_info : list Z) (sfreq : Z)
    (include_rest : bool) (rest_duration : Z)
    (include_baseline : bool) (baseline_duration : Z)
    (trials_ID : list nat) :
  Forall (λ duration, 0 ≤ samples duration sfreq) events_info →
  (include_rest = true → 0 ≤ samples rest_duration sfreq) →
  (include_baseline = true → 0 ≤ samples baseline_duration sfreq) →
  Forall (λ i, i < length events_info)%nat trials_ID →
  Forall (λ seg, 0 ≤ snd seg)
    (segments events_info sfreq include_rest rest_duration
       include_baseline baseline_duration trials_ID).
Proof.
  intros Hinfo Hrest Hbase Hids. unfold segments. apply Forall_app. split.
  - destruct include_baseline; [|done]. apply Forall_singleton. auto.
  - by apply trial_segments_nonneg.
Qed.

(** X15. When [N_trials] is a multiple of the number of classes and no
    duration in use rounds to a negative number of samples, the onsets of
    the array [generate_when] returns never decrease down the rows, and none
    is negative. *)
Theorem generate_when_onsets_monotone (permutation : list nat → list nat)
    (events_info : list Z) (N_trials : nat) (sfreq : Z)
    (include_rest : bool) (rest_duration : Z)
    (include_baseline : bool) (baseline_duration : Z) (evs : list event) :
  permutation (repmat_arange (length events_info)
                 (N_trials / length events_info))
    ≡ₚ repmat_arange (length events_info) (N_trials / length events_info) →
  (N_trials `mod` length events_info = 0)%nat →
  Forall (λ duration, 0 ≤ samples duration sfreq) events_info →
  (include_rest = true → 0 ≤ samples rest_duration sfreq) →
  (include_baseline = true → 0 ≤ samples baseline_duration sfreq) →
  generate_when permutation events_info N_trials sfreq include_rest
    rest_duration include_baseline baseline_duration = Some evs →
  ∀ (i j : nat) (e1 e2 : event),
    (i ≤ j)%nat → evs !! i = Some e1 → evs !! j = Some e2 →
    0 ≤ onset_sample e1 ≤ onset_sample e2.
Proof.
  intros Hperm Hmod Hinfo Hrest Hbase Hrun i j e1 e2 Hij H1 H2.
  apply generate_when_spec in Hrun as (pad & Hpos & Hrows & ->).
  cbv zeta in Hrows.
  eapply generate_when_pad in Hrows; [|done|done].
  rewrite Hmod, Nat.mul_0_r in Hrows. subst pad.
  rewrite app_nil_r in H1, H2.
  set (segs := segments _ _ _ _ _ _ _) in *.
  assert (Hsegs : Forall (λ seg, 0 ≤ snd seg) segs).
  { apply segments_nonneg; try done.
    apply Forall_forall. intros k Hk.
    rewrite Hperm in Hk. by apply repmat_arange_elem in Hk. }
  apply timeline_onset in H1, H2. rewrite H1, H2.
  replace j with (i + (j - i))%nat by lia.
  rewrite take_add_app, span_app.
  pose proof (span_nonneg (take i segs) ltac:(by apply Forall_take)).
  pose proof (span_nonneg (take (j - i) (drop i segs))
                ltac:(by apply Forall_take, Forall_drop)).
  lia.
Qed.

(** The onsets of two classes of 1 ms, which round to 0 samples. *)
Lemma generate_when_onsets_monotone_witness :
  ∃ evs,
    generate_when (λ l, l) [1; 1] 2 250 false 2000 false 5000 = Some evs ∧
    ∀ e1 e2, evs !! 0%nat = Some e1 → evs !! 1%nat = Some e2 →
             0 ≤ onset_sample e1 ≤ onset_sample e2.
Proof.
  destruct (generate_when (λ l, l) [1; 1] 2 250 false 2000 false 5000)
    as [evs|] eqn:Hrun; [|by vm_compute in Hrun].
  exists evs. split; [reflexivity|]. intros e1 e2.
  apply (generate_when_onsets_monotone (λ l, l) [1; 1] 2 250 false 2000
           false 5000 evs); try done.
  - repeat apply Forall_cons_2; [by vm_compute..|apply Forall_nil_2].
  - lia.
Defined.

(** ** [set_peak_amplitudes] followed by the test of [generate_what_failed] *)

Lemma float_eqb_refl (x : float) :
  (x =? x)%float = true ↔ Prim2SF x ≠ S754_nan.
Proof.
  rewrite FloatAxioms.eqb_spec. unfold SFeqb, SFcompare.
  destruct (Prim2SF x) as [s|s| |s m e]; simpl.
  - done.
  - by destruct s.
  - split; [done|]. by intros [].
  - rewrite Z.compare_refl, Pos.compare_cont_refl. by destruct s.
Qed.

(** X16. After [set_peak_amplitudes], the test
    [peak[1] == 0.4*(1-reduction)] by which [generate_what_failed] decides
    that a label and task have a no-modulation waveform holds on the right
    precentral label for ['MI/left'] and on the left one for ['MI/right'],
    unless [0.4*(1-reduction)] is a NaN, in which case it holds nowhere. *)
Theorem set_peak_amplitudes_no_modulation (MI_tasks : list string)
    (user_peak_params : gmap string nat) (reduction : float)
    (h : list (list float)) :
  peak_table_wf h user_peak_params →
  is_Some (user_peak_params !! "G_precentral-lh") →
  is_Some (user_peak_params !! "G_precentral-rh") →
  ∃ params h',
    set_peak_amplitudes MI_tasks user_peak_params reduction h
      = Some (params, h') ∧
    ("MI/left" ∈ MI_tasks →
     ∃ p, power_of h' params "G_precentral-rh" "MI/left" = Some p ∧
          (no_modulation p reduction = true
           ↔ Prim2SF (0.4 * (1 - reduction)) ≠ S754_nan)) ∧
    ("MI/right" ∈ MI_tasks →
     ∃ p, power_of h' params "G_precentral-lh" "MI/right" = Some p ∧
          (no_modulation p reduction = true
           ↔ Prim2SF (0.4 * (1 - reduction)) ≠ S754_nan)) ∧
    (Prim2SF (0.4 * (1 - reduction)) = S754_nan →
     ∀ p, no_modulation p reduction = false).
Proof.
  intros Hwf Hl Hr.
  destruct (set_peak_amplitudes_spec MI_tasks user_peak_params reduction h)
    as (params & h' & Hrun & _ & _ & _ & Hview); try done.
  destruct Hl as [sl Hsl], Hr as [sr Hsr].
  destruct (peak_table_wf_lookup _ _ _ _ Hwf Hsl) as (vl & Hvl & Hll).
  destruct (peak_table_wf_lookup _ _ _ _ Hwf Hsr) as (vr & Hvr & Hlr).
  assert (Hbl : base_of h user_peak_params "G_precentral-lh" = Some vl)
    by (unfold base_of; rewrite Hsl; done).
  assert (Hbr : base_of h user_peak_params "G_precentral-rh" = Some vr)
    by (unfold base_of; rewrite Hsr; done).
  exists params, h'. split; [done|]. split; [|split].
  - intros Ht. exists (0.4 * (1 - reduction))%float. split.
    + unfold power_of. rewrite Hview.
      by eapply resolved_power.
    + apply float_eqb_refl.
  - intros Ht. exists (0.4 * (1 - reduction))%float. split.
    + unfold power_of. rewrite Hview.
      by eapply resolved_power.
    + apply float_eqb_refl.
  - intros Hnan p. unfold no_modulation.
    rewrite FloatAxioms.eqb_spec, Hnan. unfold SFeqb, SFcompare.
    by destruct (Prim2SF p).
Qed.

(** The test on the table of the end-to-end scenario. *)
Lemma set_peak_amplitudes_no_modulation_witness :
  ∃ params h' p,
    set_peak_amplitudes ["MI/left"; "MI/right"]
      {[ "G_precentral-lh" := 0%nat; "G_precentral-rh" := 1%nat ]} 0.5%float
      [[10; 0.3; 2]; [11; 0.35; 2.5]]%float = Some (params, h') ∧
    power_of h' params "G_precentral-rh" "MI/left" = Some p ∧
    no_modulation p 0.5 = true.
Proof.
  destruct (set_peak_amplitudes_no_modulation ["MI/left"; "MI/right"]
              {[ "G_precentral-lh" := 0%nat; "G_precentral-rh" := 1%nat ]}
              0.5%float [[10; 0.3; 2]; [11; 0.35; 2.5]]%float)
    as (params & h' & Hrun & Hleft & _).
  - compute_done.
  - vm_compute. eauto.
  - vm_compute. eauto.
  - destruct Hleft as (p & Hp & Hiff); [compute_done|].
    exists params, h', p. split; [exact Hrun|]. split; [exact Hp|].
    apply Hiff. vm_compute. discriminate.
Defined.

(** ** The sampling frequency of the source simulator *)

Lemma all_below (P : Z → bool) (n : N) :
  N.recursion true (λ k acc, P (Z.of_N k + 1) && acc) n = true →
  ∀ z, 1 ≤ z ≤ Z.of_N n → P z = true.
Proof.
  induction n as [|n IH] using N.peano_ind; intros Hall z Hz; [lia|].
  rewrite N.recursion_succ in Hall; [|done|by intros ?? -> ?? ->].
  apply andb_true_iff in Hall as [Hn Hall].
  destruct (decide (z = Z.of_N n + 1)) as [->|Hne]; [done|].
  apply IH; [done|lia].
Qed.

(** X17. The sampling frequency that [add_basal_theta_alpha] and
    [add_fatigue_effect] recover from the time step of a simulator built by
    [set_up_source_forward] is, for every integer rate from 1 to 5000 Hz,
    the rate itself or one less: the reciprocal of the reciprocal can fall
    just below the rate, and [int] truncates.  It is exact at 100, 128, 250,
    256, 500, 512, 1000, 1024 and 2048 Hz, and 92 at 93 Hz. *)
Theorem simulator_sfreq_round_trip (sfreq : Z) :
  1 ≤ sfreq ≤ 5000 →
  (simulator_sfreq (tstep_of sfreq) = Some sfreq
   ∨ simulator_sfreq (tstep_of sfreq) = Some (sfreq - 1)) ∧
  (sfreq ∈ [100; 128; 250; 256; 500; 512; 1000; 1024; 2048] →
   simulator_sfreq (tstep_of sfreq) = Some sfreq) ∧
  (sfreq = 93 → simulator_sfreq (tstep_of sfreq) = Some 92).
Proof.
  intros Hrange. split; [|split].
  - set (check := λ s, match simulator_sfreq (tstep_of s) with
                       | Some r => (r =? s) || (r =? s - 1)
                       | None => false
                       end).
    assert (Hall : N.recursion true
                     (λ k acc, check (Z.of_N k + 1) && acc) 5000 = true)
      by (vm_compute; reflexivity).
    pose proof (all_below check 5000 Hall sfreq Hrange) as Hs.
    unfold check in Hs.
    destruct (simulator_sfreq (tstep_of sfreq)) as [r|]; [|done].
    apply orb_true_iff in Hs as [Hs|Hs]; apply Z.eqb_eq in Hs; subst; auto.
  - intros Hin. repeat (apply elem_of_cons in Hin as [->|Hin];
                        [reflexivity|]).
    by apply elem_of_nil in Hin.
  - intros ->. reflexivity.
Qed.

(** The round trip at 93 Hz. *)
Lemma simulator_sfreq_round_trip_witness :
  simulator_sfreq (tstep_of 93) = Some 92.
Proof.
  refine (proj2 (proj2 (simulator_sfreq_round_trip 93 _)) _).
  - lia.
  - reflexivity.
Defined.
